(** * Hermes profiler relay: a shallow embedding and its properties

    The repository glues three collaborators together:
    - the dev-server middleware ([server/registerDevServerMiddleware.cjs]),
    - the in-app hook ([src/react-native/useHermesProfilerDevTools.ts]),
    - the DevTools panel ([src/profiler-panel.tsx]).

    Each is embedded below as executable Rocq functions with explicit state
    passing; what the JavaScript receives from outside (file system, child
    process, native profiler, network, clock) is an explicit argument. *)

From Stdlib Require Import Ascii String NArith ZArith Lia.
From stdpp Require Import base option list gmap strings pretty.

Open Scope string_scope.
Open Scope N_scope.

(* stdpp blocks [simpl] on string concatenation; the proofs below compute
   with it. *)
Arguments String.append !s1 s2 : simpl nomatch.

(* ===================================================================== *)
(** * Part I: definitions *)
(* ===================================================================== *)

(** ** JavaScript values used by all three files *)
Module JS.

(** [!!s] for a string: only the empty string is falsy. *)
Definition truthy (s : string) : bool := negb (String.eqb s "").

(** [a || b] when [a] is a string, or [undefined]. *)
Definition or_else (a : option string) (b : string) : string :=
  match a with
  | Some s => if truthy s then s else b
  | None => b
  end.

(** [a || b] when both sides may be [undefined]. *)
Definition or_opt (a b : option string) : option string :=
  match a with
  | Some s => if truthy s then Some s else b
  | None => b
  end.

(** [!!a] for a string that may be [undefined]. *)
Definition truthy_opt (a : option string) : bool :=
  match a with Some s => truthy s | None => false end.

(** [s.split(sep)] for a one-character separator: never the empty array,
    [''.split('/')] is [['']]. *)
Fixpoint split (sep : ascii) (s : string) : list string :=
  match s with
  | EmptyString => [EmptyString]
  | String c rest =>
      if Ascii.eqb c sep then EmptyString :: split sep rest
      else match split sep rest with
           | seg :: segs => String c seg :: segs
           | [] => [String c EmptyString]
           end
  end.

(** [arr.join(sep)] *)
Fixpoint join (sep : string) (arr : list string) : string :=
  match arr with
  | [] => ""
  | [s] => s
  | s :: rest => s ++ sep ++ join sep rest
  end.

(** [arr.pop()]: the last element, [undefined] on the empty array. *)
Definition pop (arr : list string) : option string := last arr.

(** Values the code catches: an [Error] object (with its [name] and
    [message]), a thrown string, or [undefined]. *)
Inductive thrown :=
| ThrownError (name message : string)
| ThrownString (s : string)
| ThrownUndefined.

(** [String(e)]; for an [Error] this is [Error.prototype.toString]. *)
Definition to_String (e : thrown) : string :=
  match e with
  | ThrownError name message =>
      if negb (truthy message) then name
      else if negb (truthy name) then message
      else name ++ ": " ++ message
  | ThrownString s => s
  | ThrownUndefined => "undefined"
  end.

(** [e?.message]. *)
Definition message_of (e : thrown) : option string :=
  match e with
  | ThrownError _ message => Some message
  | _ => None
  end.

(** [String(e?.message || e)] (hook and server) and
    [e?.message || String(e)] (panel) agree on these values. *)
Definition err_text (e : thrown) : string := or_else (message_of e) (to_String e).

(** [`${n}`] for a non-negative integer. *)
Definition num_to_string (n : N) : string := pretty n.


End JS.

(** ** Regular expressions, as far as the filename pattern needs them *)
Module Regex.

Inductive regex :=
| Void
| Eps
| Class (p : ascii -> bool)
| Cat (r1 r2 : regex)
| Alt (r1 r2 : regex)
| Star (r : regex).

(** [r+] *)
Definition Plus (r : regex) : regex := Cat r (Star r).

(** A literal string. *)
Fixpoint Lit (s : string) : regex :=
  match s with
  | EmptyString => Eps
  | String c rest => Cat (Class (Ascii.eqb c)) (Lit rest)
  end.

Fixpoint nullable (r : regex) : bool :=
  match r with
  | Void => false
  | Eps => true
  | Class _ => false
  | Cat r1 r2 => nullable r1 && nullable r2
  | Alt r1 r2 => nullable r1 || nullable r2
  | Star _ => true
  end.

Fixpoint deriv (c : ascii) (r : regex) : regex :=
  match r with
  | Void => Void
  | Eps => Void
  | Class p => if p c then Eps else Void
  | Cat r1 r2 =>
      if nullable r1 then Alt (Cat (deriv c r1) r2) (deriv c r2)
      else Cat (deriv c r1) r2
  | Alt r1 r2 => Alt (deriv c r1) (deriv c r2)
  | Star r1 => Cat (deriv c r1) (Star r1)
  end.

(** [/^r$/.test(s)]: the whole string is in the language of [r]. *)
Fixpoint test (r : regex) (s : string) : bool :=
  match s with
  | EmptyString => nullable r
  | String c rest => test (deriv c r) rest
  end.

(** The language of a regular expression, to check [test] against. *)
Inductive matches : regex -> string -> Prop :=
| m_eps : matches Eps ""
| m_class p c : p c = true -> matches (Class p) (String c "")
| m_cat r1 r2 s1 s2 : matches r1 s1 -> matches r2 s2 -> matches (Cat r1 r2) (s1 ++ s2)
| m_alt_l r1 r2 s : matches r1 s -> matches (Alt r1 r2) s
| m_alt_r r1 r2 s : matches r2 s -> matches (Alt r1 r2) s
| m_star_nil r : matches (Star r) ""
| m_star_cons r s1 s2 : matches r s1 -> matches (Star r) s2 -> matches (Star r) (s1 ++ s2).

Definition in_range (lo hi c : ascii) : bool :=
  (N_of_ascii lo <=? N_of_ascii c) && (N_of_ascii c <=? N_of_ascii hi).

(** [\d] *)
Definition digit (c : ascii) : bool := in_range "0" "9" c.
(** [[A-F0-9]] *)
Definition hex_upper (c : ascii) : bool := in_range "A" "F" c || in_range "0" "9" c.
(** [[A-F0-9-]] *)
Definition hex_upper_dash (c : ascii) : bool :=
  in_range "A" "F" c || in_range "0" "9" c || Ascii.eqb c "-".

(** Every character of [s] satisfies [p]. *)
Fixpoint all_chars (p : ascii -> bool) (s : string) : bool :=
  match s with
  | EmptyString => true
  | String c rest => p c && all_chars p rest
  end.

End Regex.

(** ** What the code takes from its platform

    [DEFAULT_PORT] is exported by [server/config.mjs], which is not among
    the sources; the other three are Node and browser library functions.
    All four are parameters of the development. *)
Class Platform := {
  DEFAULT_PORT : N;
  (** [path.join(dir, name)] *)
  path_join : string -> string -> string;
  (** [encodeURIComponent(s)] *)
  encodeURIComponent : string -> string;
  (** [Buffer.from(s, 'utf8').toString('base64')] *)
  base64_of_utf8 : string -> string;
}.

(** A platform for examples: the port of the README, and stand-ins for the
    three library functions. *)
Definition sample_platform : Platform :=
  {| DEFAULT_PORT := 9337;
     path_join := fun dir name => dir ++ "/" ++ name;
     encodeURIComponent := fun s => s;
     base64_of_utf8 := fun s => "b64:" ++ s |}.

(** ** The dev-server middleware, [registerDevServerMiddleware.cjs] *)
Module Server.
Import JS.

(** *** File system and paths *)

Inductive fs_node :=
| File (content : string)
| Directory.

Abbreviation filesystem := (gmap string fs_node).

(** [fs.existsSync(p)] *)
Definition existsSync (fs : filesystem) (p : string) : bool :=
  match fs !! p with Some _ => true | None => false end.

(** [fs.readFileSync(p, 'utf8')]: the content, or the [Error] it throws. *)
Definition readFileSync (fs : filesystem) (p : string) : string + thrown :=
  match fs !! p with
  | Some (File content) => inl content
  | Some Directory =>
      inr (ThrownError "Error" "EISDIR: illegal operation on a directory, read")
  | None =>
      inr (ThrownError "Error" ("ENOENT: no such file or directory, open '" ++ p ++ "'"))
  end.

(** The character is not the path separator. *)
Definition not_slash (c : ascii) : bool := negb (Ascii.eqb c "/").

Fixpoint drop_slashes (cs : list ascii) : list ascii :=
  match cs with
  | c :: rest => if Ascii.eqb c "/" then drop_slashes rest else cs
  | [] => []
  end.

Fixpoint take_segment (cs : list ascii) : list ascii :=
  match cs with
  | c :: rest => if Ascii.eqb c "/" then [] else c :: take_segment rest
  | [] => []
  end.

(** [path.basename(p)] on POSIX: scanning from the end, skip the trailing
    slashes, then keep everything up to the next slash. *)
Definition basename (p : string) : string :=
  string_of_list_ascii
    (rev (take_segment (drop_slashes (rev (list_ascii_of_string p))))).

(** [s.replace(/suffix$/, replacement)] for a literal suffix. *)
Fixpoint replace_suffix (suffix replacement s : string) : string :=
  if String.eqb s suffix then replacement
  else match s with
       | EmptyString => EmptyString
       | String c rest => String c (replace_suffix suffix replacement rest)
       end.

(** *** Requests and responses *)

(** The JSON objects the endpoints send; an absent key is [None]. *)
Record json := {
  j_ok : option bool;
  j_error : option string;
  j_stderr : option string;
  j_outputPath : option string;
  j_outputFilename : option string;
  j_outputBase64 : option string;
  j_mime : option string;
  j_stdout : option string;
  j_profileUrl : option string;
  j_devtoolsUrl : option string;
}.

(** [{}] *)
Definition json_empty : json :=
  {| j_ok := None; j_error := None; j_stderr := None; j_outputPath := None;
     j_outputFilename := None; j_outputBase64 := None; j_mime := None;
     j_stdout := None; j_profileUrl := None; j_devtoolsUrl := None |}.

(** [{ error: msg }] *)
Definition json_error (msg : string) : json :=
  {| j_ok := None; j_error := Some msg; j_stderr := None; j_outputPath := None;
     j_outputFilename := None; j_outputBase64 := None; j_mime := None;
     j_stdout := None; j_profileUrl := None; j_devtoolsUrl := None |}.

Inductive response :=
| Json (status : N) (body : json)                      (* res.status(n).json(body) *)
| Sent (status : N) (content_type body : string)       (* res.send(body) *)
| Uncaught (e : thrown).                               (* the handler threw: Express answers 500 *)

Definition status_of (r : response) : N :=
  match r with
  | Json status _ => status
  | Sent status _ _ => status
  | Uncaught _ => 500
  end.

(** How the spawned CLI ended: its exit code ([None] when killed by a
    signal) and what it wrote. *)
Record child_result := {
  exit_code : option Z;
  child_stdout : string;
  child_stderr : string;
}.

(** [String(e.message)] *)
Definition String_message (e : thrown) : string :=
  match message_of e with Some m => m | None => "undefined" end.

(** *** POST /rozenite/hermes/transform *)
Definition post_transform `{Platform} (cwd : string) (fs : filesystem)
    (spawn_cli : string -> child_result) (body_path : option string) : response :=
  let rawPath := default "" body_path in
  if negb (truthy rawPath) then Json 400 (json_error "missing_path")
  else
    let child := spawn_cli rawPath in
    if negb (bool_decide (exit_code child = Some 0%Z)) then
      Json 500 {| j_ok := None; j_error := Some "transform_failed";
                  j_stderr := Some (child_stderr child); j_outputPath := None;
                  j_outputFilename := None; j_outputBase64 := None; j_mime := None;
                  j_stdout := None; j_profileUrl := None; j_devtoolsUrl := None |}
    else
      let originalFilename := basename rawPath in
      let convertedFilename :=
        replace_suffix ".cpuprofile" "-converted.json" originalFilename in
      let outputPath := path_join cwd convertedFilename in
      match readFileSync fs outputPath with
      | inl outputContent =>
          Json 200 {| j_ok := Some true; j_error := None; j_stderr := None;
                      j_outputPath := Some outputPath;
                      j_outputFilename := Some convertedFilename;
                      j_outputBase64 := Some (base64_of_utf8 outputContent);
                      j_mime := Some "application/json";
                      j_stdout := Some (child_stdout child);
                      j_profileUrl := None; j_devtoolsUrl := None |}
      | inr e => Json 500 (json_error (String_message e))
      end.

(** *** GET /rozenite/hermes/profile/:filename *)

(** [/^profile-[A-F0-9-]+-\d+-[A-F0-9]+-converted\.json$/] *)
Definition profile_filename_re : Regex.regex :=
  Regex.Cat (Regex.Lit "profile-")
    (Regex.Cat (Regex.Plus (Regex.Class Regex.hex_upper_dash))
       (Regex.Cat (Regex.Lit "-")
          (Regex.Cat (Regex.Plus (Regex.Class Regex.digit))
             (Regex.Cat (Regex.Lit "-")
                (Regex.Cat (Regex.Plus (Regex.Class Regex.hex_upper))
                   (Regex.Lit "-converted.json")))))).

Definition get_profile (fs : filesystem) (profilePathCache : gmap string string)
    (filename : string) : response :=
  if negb (Regex.test profile_filename_re filename) then
    Json 400 (json_error "invalid_filename")
  else
    let profilePath := profilePathCache !! filename in
    if negb (truthy_opt profilePath) || negb (existsSync fs (default "" profilePath)) then
      Json 404 (json_error "not_found")
    else
      match readFileSync fs (default "" profilePath) with
      | inl content => Sent 200 "application/json" content
      | inr e => Uncaught e
      end.

(** *** POST /rozenite/hermes/open

    [open_chrome] is [None] when both calls of [open] succeed, and the
    thrown value otherwise.  The cache is written before Chrome is tried. *)
Definition post_open `{Platform} (serverPort : option N) (open_chrome : option thrown)
    (profilePathCache : gmap string string) (body_path : option string)
    : gmap string string * response :=
  let filePath := default "" body_path in
  if negb (truthy filePath) then (profilePathCache, Json 400 (json_error "missing_path"))
  else
    let filename := basename filePath in
    let cache' := <[filename := filePath]> profilePathCache in
    let profileUrl :=
      "http://localhost:" ++ from_option num_to_string "undefined" serverPort
        ++ "/rozenite/hermes/profile/" ++ filename in
    let devtoolsUrl :=
      "devtools://devtools/bundled/devtools_app.html?loadTimelineFromURL="
        ++ encodeURIComponent profileUrl in
    match open_chrome with
    | None =>
        (cache', Json 200 {| j_ok := Some true; j_error := None; j_stderr := None;
                             j_outputPath := None; j_outputFilename := None;
                             j_outputBase64 := None; j_mime := None; j_stdout := None;
                             j_profileUrl := Some profileUrl;
                             j_devtoolsUrl := Some devtoolsUrl |})
    | Some e => (cache', Json 500 (json_error (String_message e)))
    end.

(** *** The running server: requests handled one after another *)

Inductive request :=
| PostTransform (body_path : option string) (spawn_cli : string -> child_result)
| GetProfile (filename : string)
| PostOpen (body_path : option string) (open_chrome : option thrown).

(** The request writes the cache entry of [key]. *)
Definition registers (key : string) (req : request) : bool :=
  match req with
  | PostOpen (Some filePath) _ => truthy filePath && String.eqb (basename filePath) key
  | _ => false
  end.

(** One request, handled against the file system as it is at that time. *)
Definition handle `{Platform} (cwd : string) (serverPort : option N)
    (cache : gmap string string) (fs : filesystem) (req : request)
    : gmap string string * response :=
  match req with
  | PostTransform body_path spawn_cli => (cache, post_transform cwd fs spawn_cli body_path)
  | GetProfile filename => (cache, get_profile fs cache filename)
  | PostOpen body_path open_chrome => post_open serverPort open_chrome cache body_path
  end.

Fixpoint serve `{Platform} (cwd : string) (serverPort : option N)
    (cache : gmap string string) (reqs : list (filesystem * request))
    : gmap string string * list response :=
  match reqs with
  | [] => (cache, [])
  | (fs, req) :: rest =>
      let '(cache', resp) := handle cwd serverPort cache fs req in
      let '(cache'', resps) := serve cwd serverPort cache' rest in
      (cache'', resp :: resps)
  end.

(** *** [startHermesProfilerServer]

    The module-level variables [started] and [serverPort], and, to speak
    about what a call does, how often the configuration was imported and
    which listeners were started.  [awaiting] holds while the first call
    is suspended at [await import('./config.mjs')]. *)
Record module_state := {
  started : bool;
  serverPort : option N;
  awaiting : bool;
  config_imports : nat;
  listeners : list N;
}.

Definition initial : module_state :=
  {| started := false; serverPort := None; awaiting := false;
     config_imports := 0%nat; listeners := [] |}.

Inductive server_handle := HttpServer (port : N).

(** [{ port, server }] *)
Record start_result := {
  port : option N;
  server : option server_handle;
}.

(** The part of a call that runs before it returns or suspends: [Some r]
    when the call returns [r] at once, [None] when it suspends at the
    import. *)
Definition call_start (st : module_state) : module_state * option start_result :=
  if started st then (st, Some {| port := serverPort st; server := None |})
  else
    ({| started := true; serverPort := serverPort st; awaiting := true;
        config_imports := S (config_imports st); listeners := listeners st |},
     None).

(** The rest of the first call, once the import has resolved. *)
Definition resume_start `{Platform} (st : module_state) : module_state * start_result :=
  ({| started := started st; serverPort := Some DEFAULT_PORT; awaiting := false;
      config_imports := config_imports st;
      listeners := listeners st ++ [DEFAULT_PORT] |},
   {| port := Some DEFAULT_PORT; server := Some (HttpServer DEFAULT_PORT) |}).



(** Calls that are not awaited: a schedule of calls and of the moment the
    pending import resolves. *)
Inductive startup_event :=
| CallStart
| ImportResolves.

(** One event of a schedule, with what it returns: for a call, its result
    if it returns at once; for the import, the result of the suspended
    first call. *)
Definition startup_step `{Platform} (st : module_state) (ev : startup_event)
    : module_state * option start_result :=
  match ev with
  | CallStart => call_start st
  | ImportResolves =>
      if awaiting st then (fst (resume_start st), Some (snd (resume_start st)))
      else (st, None)
  end.

Fixpoint startup_run `{Platform} (st : module_state) (evs : list startup_event)
    : module_state * list (option start_result) :=
  match evs with
  | [] => (st, [])
  | ev :: rest =>
      let '(st', r) := startup_step st ev in
      let '(st'', rs) := startup_run st' rest in
      (st'', r :: rs)
  end.

End Server.

(** ** The bridge messages, [PluginEvents] (declared alike in the hook and
    in the panel) *)
Module Bridge.

(** The payload of ['profile-data']; every key is optional. *)
Record profile_data := {
  filename : option string;
  path : option string;
  base64 : option string;
  size : option N;
  mime : option string;
  error : option string;
}.

(** [{ error: msg }] *)
Definition error_data (msg : string) : profile_data :=
  {| filename := None; path := None; base64 := None; size := None;
     mime := None; error := Some msg |}.

(** Runtime to panel. *)
Inductive runtime_event :=
| ProfilingStarted (timestamp : N)
| ProfileData (data : profile_data).

(** Panel to runtime. *)
Inductive panel_message :=
| StartProfiling
| StopProfiling (saveInDownloads : option bool).

End Bridge.

(** ** The in-app hook, [useHermesProfilerDevTools.ts] *)
Module Runtime.
Import JS Bridge.

(** How a call of the native [stopProfiling] ends: it throws at once, or
    returns a promise that is fulfilled with a path ([None] for
    [undefined]) or rejected some milliseconds later, or never settled. *)
Inductive stop_outcome :=
| StopThrows (e : thrown)
| StopFulfilled (after_ms : N) (path : option string)
| StopRejected (after_ms : N) (e : thrown)
| StopPending.

(** How an awaited [RNFS] promise settles. *)
Inductive settled (A : Type) :=
| Fulfilled (v : A)
| Rejected (e : thrown).
Arguments Fulfilled {A} v.
Arguments Rejected {A} e.

(** Everything the two handlers take from outside. *)
Record environment := {
  (** [startProfiling()]: [None] when it returns, the thrown value otherwise *)
  startProfiling : option thrown;
  (** [Date.now()] *)
  now : N;
  (** [stopProfiling(saveInDownloads)] *)
  stopProfiling : bool -> stop_outcome;
  (** whether the two promises of [Promise.race] settling in the same
      millisecond is decided for [stopProfiling] *)
  stop_wins_tie : bool;
  (** [RNFS?.readFile] is there *)
  has_readFile : bool;
  (** [RNFS.readFile(path, 'base64')] *)
  readFile : string -> settled string;
  (** [(await RNFS.stat(path)).size] *)
  stat_size : string -> settled N;
}.

(** The delay of the timer the stop handler races against. *)
Definition stop_timeout_ms : N := 9000.

Definition timeout_error : thrown := ThrownError "Error" "Profiler timeout".

(** [await Promise.race([stopProfiling(save), <timer rejecting after 9000>])]:
    the path, or what the [catch] receives. *)
Definition race_stop (stop_wins_tie : bool) (o : stop_outcome) : option string + thrown :=
  let first (after_ms : N) :=
    (after_ms <? stop_timeout_ms) || (stop_wins_tie && (after_ms =? stop_timeout_ms)) in
  match o with
  | StopThrows e => inr e
  | StopFulfilled after_ms path => if first after_ms then inl path else inr timeout_error
  | StopRejected after_ms e => if first after_ms then inr e else inr timeout_error
  | StopPending => inr timeout_error
  end.

(** [path?.split('/')?.pop?.() || 'hermes-profile.trace'] *)
Definition suggested_filename (path : option string) : string :=
  or_else (p ← path; pop (split "/" p)) "hermes-profile.trace".

(** [Number(size || 0)] *)
Definition Number_or_0 (size : N) : N := if size =? 0 then 0 else size.

(** What a handler does, in order: the calls into the native modules and
    the events it sends over the bridge. *)
Inductive action :=
| CallStartProfiling
| CallStopProfiling (saveInDownloads : bool)
| CallReadFile (path : string)
| CallStat (path : string)
| Send (e : runtime_event).

(** The events among the actions. *)
Definition sent (acts : list action) : list runtime_event :=
  omap (fun a => match a with Send e => Some e | _ => None end) acts.

(** The handler of ['start-profiling']. *)
Definition on_start_profiling (env : environment) : list action :=
  CallStartProfiling ::
  match startProfiling env with
  | None => [Send (ProfilingStarted (now env))]
  | Some e => [Send (ProfileData (error_data (err_text e)))]
  end.

(** The [if (path && RNFS?.readFile)] block: the calls it makes and the
    [base64] and [size] it leaves. *)
Definition read_profile (env : environment) (path : option string)
    : list action * (option string * option N) :=
  match path with
  | Some p =>
      if truthy p && has_readFile env then
        match readFile env p with
        | Fulfilled b =>
            match stat_size env p with
            | Fulfilled sz => ([CallReadFile p; CallStat p], (Some b, Some (Number_or_0 sz)))
            | Rejected _ => ([CallReadFile p; CallStat p], (Some b, None))
            end
        | Rejected _ => ([CallReadFile p], (None, None))
        end
      else ([], (None, None))
  | None => ([], (None, None))
  end.

(** The handler of ['stop-profiling'].  [payload] is the message's
    [saveInDownloads], [None] when absent. *)
Definition on_stop_profiling (env : environment) (payload : option bool)
    : list action :=
  let saveInDownloads := default false payload in
  CallStopProfiling saveInDownloads ::
  match race_stop (stop_wins_tie env) (stopProfiling env saveInDownloads) with
  | inr e => [Send (ProfileData (error_data (err_text e)))]
  | inl path =>
      let filename := suggested_filename path in
      let '(calls, (base64, size)) := read_profile env path in
      (calls ++ [Send (ProfileData
                   {| filename := Some filename; path := path; base64 := base64;
                      size := size; mime := Some "application/octet-stream";
                      error := None |})])%list
  end.



(** The native stop operation has not settled after [ms] milliseconds. *)
Definition unsettled_after (ms : N) (o : stop_outcome) : bool :=
  match o with
  | StopThrows _ => false
  | StopFulfilled after_ms _ => ms <? after_ms
  | StopRejected after_ms _ => ms <? after_ms
  | StopPending => true
  end.

(** No character of [s] is a slash. *)
Definition no_slash (s : string) : bool :=
  Regex.all_chars (fun c => negb (Ascii.eqb c "/")) s.



(** An environment in which the native calls end as given, for examples. *)
Definition sample_env (start : option thrown) (stop : stop_outcome)
    (read : settled string) (stat : settled N) : environment :=
  {| startProfiling := start; now := 1700000000000;
     stopProfiling := fun _ => stop; stop_wins_tie := false;
     has_readFile := true; readFile := fun _ => read; stat_size := fun _ => stat |}.

End Runtime.

(** ** The DevTools panel, [profiler-panel.tsx] *)
Module Panel.
Import JS Bridge.

(** *** [tryEndpoints] *)

(** How [fetch(url, ...)] followed by [res.json()] ends: [fetch] rejects,
    or there is a response with its status and its body ([None] when the
    body is not JSON, which the code turns into the empty object). *)
Inductive fetch_outcome :=
| FetchThrows (e : thrown)
| Responded (status : N) (body : option Server.json).

(** [res.ok] *)
Definition res_ok (status : N) : bool := (200 <=? status) && (status <=? 299).

(** [json?.ok === false] *)
Definition ok_is_false (j : Server.json) : bool :=
  match Server.j_ok j with Some false => true | _ => false end.

Definition candidates `{Platform} : list string :=
  [ "http://localhost:" ++ num_to_string DEFAULT_PORT ++ "/rozenite/hermes/transform";
    "http://127.0.0.1:" ++ num_to_string DEFAULT_PORT ++ "/rozenite/hermes/transform" ].

(** [{ ok: true, json }] or [{ ok: false, error: lastErr }] *)
Inductive try_result :=
| TryOk (json : Server.json)
| TryFail (error : option string).

(** What one attempt leaves in [lastErr], [None] when it succeeds. *)
Definition attempt_error (o : fetch_outcome) : option string :=
  match o with
  | FetchThrows e => Some (err_text e)
  | Responded status body =>
      let json := default Server.json_empty body in
      if negb (res_ok status) || ok_is_false json then
        Some (or_else (or_opt (Server.j_stderr json) (Server.j_error json))
                ("HTTP " ++ num_to_string status))
      else None
  end.

(** The [json] a response is read as. *)
Definition response_json (o : fetch_outcome) : Server.json :=
  match o with
  | Responded _ body => default Server.json_empty body
  | FetchThrows _ => Server.json_empty
  end.

(** The [for] loop over the candidates, with the addresses it fetched.
    [fetch url path] is what posting [{ path }] to [url] gives. *)
Fixpoint try_loop (fetch : string -> string -> fetch_outcome) (path : string)
    (urls : list string) (lastErr : option string) : list string * try_result :=
  match urls with
  | [] => ([], TryFail lastErr)
  | url :: rest =>
      match fetch url path with
      | FetchThrows e =>
          let '(fetched, r) := try_loop fetch path rest (Some (err_text e)) in
          (url :: fetched, r)
      | Responded status body =>
          let json := default Server.json_empty body in
          if negb (res_ok status) || ok_is_false json then
            let lastErr' :=
              Some (or_else (or_opt (Server.j_stderr json) (Server.j_error json))
                      ("HTTP " ++ num_to_string status)) in
            let '(fetched, r) := try_loop fetch path rest lastErr' in
            (url :: fetched, r)
          else ([url], TryOk json)
      end
  end.

Definition tryEndpoints `{Platform} (fetch : string -> string -> fetch_outcome)
    (path : string) : list string * try_result :=
  try_loop fetch path candidates None.

(** What the panel's [fetch] sees of a response of the relay. *)
Definition as_fetched (r : Server.response) : fetch_outcome :=
  match r with
  | Server.Json status body => Responded status (Some body)
  | Server.Sent status _ _ => Responded status None
  | Server.Uncaught _ => Responded 500 None
  end.

(** The relay as one address sees it: its working directory, its file
    system and what the CLI does when spawned. *)
Record relay := {
  cwd : string;
  fs : Server.filesystem;
  spawn_cli : string -> Server.child_result;
}.

(** A network on which every address either cannot be reached ([fetch]
    rejects) or is answered by the relay's transform endpoint. *)
Definition relay_fetch `{Platform} (net : string -> thrown + relay)
    (url path : string) : fetch_outcome :=
  match net url with
  | inl e => FetchThrows e
  | inr r => as_fetched (Server.post_transform (cwd r) (fs r) (spawn_cli r) (Some path))
  end.

(** [json] is what the relay reached at [url] answers when it has
    converted [path]: the CLI ended with code 0, the converted file was
    read, and the answer names it and carries its content encoded. *)
Definition converted_answer `{Platform} (net : string -> thrown + relay)
    (url path : string) (json : Server.json) : Prop :=
  exists r content,
    net url = inr r /\
    Server.exit_code (spawn_cli r path) = Some 0%Z /\
    let name :=
      Server.replace_suffix ".cpuprofile" "-converted.json" (Server.basename path) in
    fs r !! path_join (cwd r) name = Some (Server.File content) /\
    Server.j_outputFilename json = Some name /\
    Server.j_outputBase64 json = Some (base64_of_utf8 content) /\
    Server.j_outputPath json = Some (path_join (cwd r) name).

(** A relay whose CLI succeeds and has written the converted file. *)
Definition sample_relay : relay :=
  {| cwd := "/work";
     fs := {[ "/work/p-converted.json" := Server.File "{}" ]};
     spawn_cli := fun _ =>
       {| Server.exit_code := Some 0%Z; Server.child_stdout := "";
          Server.child_stderr := "" |} |}.

(** *** The component's state *)

Record CapturedTrace := {
  id : string;
  receivedAt : N;
  t_filename : option string;
  t_path : option string;
  t_size : option N;
  t_error : option string;
  transforming : option bool;
  transformError : option string;
  transformedPath : option string;
}.

(** The callbacks given to [setTimeout]. *)
Inductive timer_callback :=
| StopTimedOut      (* setIsStopping(false); setStatusMsg('No response ...') *)
| ClearStatus.      (* setStatusMsg(null) *)

Record timer := {
  callback : timer_callback;
  delay_ms : N;
}.

(** The [useState] cells, the [pendingStopTimer] ref, and the timers that
    are scheduled and have neither run nor been cleared. *)
Record panel := {
  isProfiling : bool;
  isStopping : bool;
  traces : list CapturedTrace;
  statusMsg : option string;
  pendingStopTimer : option positive;
  timers : gmap positive timer;
  next_timer : positive;
}.

Definition initial : panel :=
  {| isProfiling := false; isStopping := false; traces := []; statusMsg := None;
     pendingStopTimer := None; timers := ∅; next_timer := 1%positive |}.

(** What a handler does to the outside. *)
Inductive effect :=
| Send (m : panel_message)                       (* client.send *)
| StartTransform (trace_id path : string)        (* tryEndpoints() is started *)
| PostOpen (path : string).                      (* fetch(.../rozenite/hermes/open) *)

Definition set_flags (profiling stopping : bool) (st : panel) : panel :=
  {| isProfiling := profiling; isStopping := stopping; traces := traces st;
     statusMsg := statusMsg st; pendingStopTimer := pendingStopTimer st;
     timers := timers st; next_timer := next_timer st |}.

Definition set_status (msg : option string) (st : panel) : panel :=
  {| isProfiling := isProfiling st; isStopping := isStopping st; traces := traces st;
     statusMsg := msg; pendingStopTimer := pendingStopTimer st;
     timers := timers st; next_timer := next_timer st |}.

Definition set_traces (ts : list CapturedTrace) (st : panel) : panel :=
  {| isProfiling := isProfiling st; isStopping := isStopping st; traces := ts;
     statusMsg := statusMsg st; pendingStopTimer := pendingStopTimer st;
     timers := timers st; next_timer := next_timer st |}.

Definition set_pending (h : option positive) (st : panel) : panel :=
  {| isProfiling := isProfiling st; isStopping := isStopping st; traces := traces st;
     statusMsg := statusMsg st; pendingStopTimer := h;
     timers := timers st; next_timer := next_timer st |}.

(** [clearTimeout(h)] *)
Definition clearTimeout (h : positive) (st : panel) : panel :=
  {| isProfiling := isProfiling st; isStopping := isStopping st; traces := traces st;
     statusMsg := statusMsg st; pendingStopTimer := pendingStopTimer st;
     timers := delete h (timers st); next_timer := next_timer st |}.

(** [setTimeout(cb, ms)]: the new handle and the state with the timer. *)
Definition setTimeout (cb : timer_callback) (ms : N) (st : panel) : positive * panel :=
  (next_timer st,
   {| isProfiling := isProfiling st; isStopping := isStopping st; traces := traces st;
      statusMsg := statusMsg st; pendingStopTimer := pendingStopTimer st;
      timers := <[next_timer st := {| callback := cb; delay_ms := ms |}]> (timers st);
      next_timer := Pos.succ (next_timer st) |}).

(** [prev.map((t) => (t.id === id ? f(t) : t))] *)
Definition update_trace (trace_id : string) (f : CapturedTrace -> CapturedTrace)
    (ts : list CapturedTrace) : list CapturedTrace :=
  map (fun t => if String.eqb (id t) trace_id then f t else t) ts.

(** *** The handlers *)

(** The handler of ['profiling-started']. *)
Definition on_profiling_started (st : panel) : panel :=
  set_flags true (isStopping st) st.

(** The handler of ['profile-data'], up to where [tryEndpoints()] is
    started; [now_id] and [now_received] are the two readings of
    [Date.now()]. *)
Definition on_profile_data (now_id now_received : N) (data : profile_data)
    (st : panel) : panel * list effect :=
  let st :=
    match pendingStopTimer st with
    | Some h => set_pending None (clearTimeout h st)
    | None => st
    end in
  let st := set_flags (isProfiling st) false st in
  let st := set_flags false (isStopping st) st in
  let trace_id := num_to_string now_id in
  if truthy_opt (error data) then
    let st :=
      set_traces ({| id := trace_id; receivedAt := now_received;
                     t_filename := filename data; t_path := None; t_size := None;
                     t_error := error data; transforming := None;
                     transformError := None; transformedPath := None |}
                    :: traces st) st in
    (set_status (Some ("Error: " ++ default "" (error data))) st, [])
  else
    let st := set_status (Some "Transforming profile…") st in
    let placeholder :=
      {| id := trace_id; receivedAt := now_received; t_filename := filename data;
         t_path := path data; t_size := None; t_error := None;
         transforming := Some true; transformError := None;
         transformedPath := None |} in
    let st := set_traces (placeholder :: traces st) st in
    if truthy_opt (path data) then (st, [StartTransform trace_id (default "" (path data))])
    else
      let no_path t :=
        {| id := id t; receivedAt := receivedAt t; t_filename := t_filename t;
           t_path := t_path t; t_size := t_size t; t_error := t_error t;
           transforming := Some false; transformError := Some "No path returned";
           transformedPath := transformedPath t |} in
      let st := set_traces (update_trace trace_id no_path (traces st)) st in
      (set_status (Some "No path to transform") st, [])
.

(** [Math.round((n * 3) / 4)] *)
Definition round_three_quarters (n : N) : N := (3 * n + 2) / 4.

(** The [then] callback of [tryEndpoints()] for the trace [trace_id]. *)
Definition on_transform_settled (trace_id : string) (result : try_result)
    (st : panel) : panel :=
  match result with
  | TryFail err =>
      let failed t :=
        {| id := id t; receivedAt := receivedAt t; t_filename := t_filename t;
           t_path := t_path t; t_size := t_size t; t_error := t_error t;
           transforming := Some false;
           transformError := Some (or_else err "Unknown error");
           transformedPath := transformedPath t |} in
      set_status (Some "Transform failed")
        (set_traces (update_trace trace_id failed (traces st)) st)
  | TryOk json =>
      let transformedSize :=
        if truthy_opt (Server.j_outputBase64 json)
        then Some (round_three_quarters
                     (N.of_nat (String.length (default "" (Server.j_outputBase64 json)))))
        else None in
      let done t :=
        {| id := id t; receivedAt := receivedAt t;
           t_filename := or_opt (Server.j_outputFilename json) (t_filename t);
           t_path := t_path t; t_size := transformedSize; t_error := t_error t;
           transforming := Some false; transformError := transformError t;
           transformedPath := Server.j_outputPath json |} in
      let st := set_traces (update_trace trace_id done (traces st)) st in
      let st := set_status (Some "Transform complete") st in
      snd (setTimeout ClearStatus 1500 st)
  end.

(** [onStart]; [client] tells whether the bridge client is there. *)
Definition onStart (client : bool) (st : panel) : panel * list effect :=
  if negb client || isProfiling st then (st, [])
  else
    let st := set_flags true (isStopping st) st in
    let st := set_status (Some "Profiling started") st in
    (st, [Send StartProfiling]).

(** The delay of the timer [onStop] sets. *)
Definition stop_timer_ms : N := 10000.

(** [onStop] *)
Definition onStop (client : bool) (st : panel) : panel * list effect :=
  if negb client then (st, [])
  else if isStopping st then (st, [])
  else
    let st := set_flags (isProfiling st) true st in
    let st := set_flags false (isStopping st) st in
    let st := set_status (Some "Stopping…") st in
    let st :=
      match pendingStopTimer st with
      | Some h => clearTimeout h st
      | None => st
      end in
    let '(h, st) := setTimeout StopTimedOut stop_timer_ms st in
    let st := set_pending (Some h) st in
    (st, [Send (StopProfiling (Some false))]).

(** A timer runs: it leaves the scheduled ones and its callback is called.
    A handle that is not scheduled (cleared, or run already) does nothing. *)
Definition on_timer (h : positive) (st : panel) : panel :=
  match timers st !! h with
  | None => st
  | Some t =>
      let st := clearTimeout h st in
      match callback t with
      | StopTimedOut =>
          set_status (Some "No response from device. Check app logs.")
            (set_flags (isProfiling st) false st)
      | ClearStatus => set_status None st
      end
  end.

(** The main button: [disabled={isStopping}],
    [onPress={isProfiling ? onStop : onStart}]. *)
Definition press (client : bool) (st : panel) : panel * list effect :=
  if isStopping st then (st, [])
  else if isProfiling st then onStop client st
  else onStart client st.

(** The text on the main button. *)
Definition button_text (st : panel) : string :=
  if isStopping st then "Stopping…"
  else if isProfiling st then "Stop Profiling"
  else "Start Profiling".

(** The button of the [i]-th trace, shown when it has a transformed path. *)
Definition press_open (i : nat) (st : panel) : panel * list effect :=
  match traces st !! i with
  | Some t =>
      if truthy_opt (transformedPath t) then (st, [PostOpen (default "" (transformedPath t))])
      else (st, [])
  | None => (st, [])
  end.

(** The request to the open endpoint ends: [ok] when there was a response
    with [res.ok]. *)
Definition on_open_settled (ok : bool) (st : panel) : panel :=
  if ok then snd (setTimeout ClearStatus 1500 (set_status (Some "Opening Chrome DevTools…") st))
  else snd (setTimeout ClearStatus 2000 (set_status (Some "Failed to open Chrome.") st)).

(** *** The panel as a transition system *)

Inductive event :=
| Press
| FromRuntime (e : runtime_event) (now_id now_received : N)
| TimerRuns (h : positive)
| TransformSettled (trace_id : string) (result : try_result)
| PressOpen (i : nat)
| OpenSettled (ok : bool).

(** One event.  The two bridge subscriptions exist only with a client. *)
Definition step (client : bool) (st : panel) (ev : event) : panel * list effect :=
  match ev with
  | Press => press client st
  | FromRuntime (ProfilingStarted _) _ _ =>
      if client then (on_profiling_started st, []) else (st, [])
  | FromRuntime (ProfileData data) now_id now_received =>
      if client then on_profile_data now_id now_received data st else (st, [])
  | TimerRuns h => (on_timer h st, [])
  | TransformSettled trace_id result => (on_transform_settled trace_id result st, [])
  | PressOpen i => press_open i st
  | OpenSettled ok => (on_open_settled ok st, [])
  end.

(** A sequence of events, with everything the panel did to the outside. *)
Fixpoint run (client : bool) (st : panel) (evs : list event) : panel * list effect :=
  match evs with
  | [] => (st, [])
  | ev :: rest =>
      let '(st', out) := step client st ev in
      let '(st'', outs) := run client st' rest in
      (st'', (out ++ outs)%list)
  end.

(** The three states of the toggle, as the two flags name them. *)
Inductive toggle := Idle | Profiling | Stopping.

Definition toggle_of (st : panel) : option toggle :=
  match isProfiling st, isStopping st with
  | false, false => Some Idle
  | true, false => Some Profiling
  | false, true => Some Stopping
  | true, true => None
  end.

(** The events whose handlers clear the stopping flag. *)
Definition resets_stopping (ev : event) : bool :=
  match ev with
  | FromRuntime (ProfileData _) _ _ => true
  | TimerRuns _ => true
  | _ => false
  end.

(** The stop messages among the effects. *)
Definition is_stop_message (e : effect) : bool :=
  match e with Send (StopProfiling _) => true | _ => false end.

Definition stop_messages (out : list effect) : list effect :=
  List.filter is_stop_message out.

(** The event is a profile-data event. *)
Definition is_profile_data (ev : event) : bool :=
  match ev with
  | FromRuntime (ProfileData _) _ _ => true
  | _ => false
  end.

(** [tryEndpoints().then(...)] for one started transform: the addresses
    are tried and the callback runs on the result. *)
Definition settle_transform `{Platform} (fetch : string -> string -> fetch_outcome)
    (st : panel) (e : effect) : panel :=
  match e with
  | StartTransform trace_id path =>
      on_transform_settled trace_id (tryEndpoints fetch path).2 st
  | _ => st
  end.

(** A profile-data event followed by the end of the transform it started,
    with no other event in between. *)
Definition profile_data_flow `{Platform} (fetch : string -> string -> fetch_outcome)
    (now_id now_received : N) (data : profile_data) (st : panel) : panel :=
  let '(st1, out) := on_profile_data now_id now_received data st in
  fold_left (settle_transform fetch) out st1.

(** The only timer that would end the stopping state, if there is one, is
    the one [pendingStopTimer] refers to. *)
Definition only_pending_stop_timer (st : panel) : Prop :=
  forall h t, timers st !! h = Some t -> callback t = StopTimedOut ->
              pendingStopTimer st = Some h.

(** A timer that would end the stopping state is scheduled. *)
Definition stop_timer_scheduled (st : panel) : Prop :=
  map_Exists (fun _ t => callback t = StopTimedOut) (timers st).

End Panel.

(* ===================================================================== *)
(** * Part II: properties *)
(* ===================================================================== *)

(** ** The matcher decides the language of the expression *)
Module RegexFacts.
Import Regex.

Lemma app_empty_inv (s1 s2 : string) : s1 ++ s2 = "" -> s1 = "" /\ s2 = "".
Proof. destruct s1; simpl; [tauto | discriminate]. Qed.

Lemma app_empty_r (s : string) : s ++ "" = s.
Proof. induction s as [|c s IH]; simpl; [reflexivity | f_equal; exact IH]. Qed.

Lemma app_assoc (s1 s2 s3 : string) : (s1 ++ s2) ++ s3 = s1 ++ (s2 ++ s3).
Proof. induction s1 as [|c s1 IH]; simpl; [reflexivity | f_equal; exact IH]. Qed.

Lemma matches_Cat (r1 r2 : regex) (s : string) :
  matches (Cat r1 r2) s <-> exists s1 s2, s = s1 ++ s2 /\ matches r1 s1 /\ matches r2 s2.
Proof.
  split.
  - intros H. remember (Cat r1 r2) as r eqn:Er.
    destruct H; try discriminate. injection Er as -> ->. eauto.
  - intros (s1 & s2 & -> & H1 & H2). by constructor.
Qed.

Lemma matches_Class (p : ascii -> bool) (s : string) :
  matches (Class p) s <-> exists c, s = String c "" /\ p c = true.
Proof.
  split.
  - intros H. remember (Class p) as r eqn:Er.
    destruct H; try discriminate. injection Er as ->. eauto.
  - intros (c & -> & Hc). by constructor.
Qed.

Lemma matches_Alt (r1 r2 : regex) (s : string) :
  matches (Alt r1 r2) s <-> matches r1 s \/ matches r2 s.
Proof.
  split.
  - intros H. remember (Alt r1 r2) as r eqn:Er.
    destruct H; try discriminate; injection Er as -> ->; auto.
  - intros [H|H]; [by apply m_alt_l | by apply m_alt_r].
Qed.

Lemma matches_Void (s : string) : ~ matches Void s.
Proof. intros H. remember Void as r eqn:Er. destruct H; discriminate. Qed.

Lemma matches_Eps (s : string) : matches Eps s <-> s = "".
Proof.
  split.
  - intros H. remember Eps as r eqn:Er. destruct H; try discriminate. reflexivity.
  - intros ->. constructor.
Qed.

Lemma nullable_matches (r : regex) : nullable r = true <-> matches r "".
Proof.
  induction r as [| |p|r1 IH1 r2 IH2|r1 IH1 r2 IH2|r IH]; simpl.
  - split; [discriminate | by intros ?%matches_Void].
  - rewrite matches_Eps. tauto.
  - rewrite matches_Class. split; [discriminate | by intros (c & ? & _)].
  - rewrite andb_true_iff, IH1, IH2, matches_Cat. split.
    + intros [H1 H2]. by exists "", "".
    + intros (s1 & s2 & E & H1 & H2). symmetry in E.
      apply app_empty_inv in E as [-> ->]. tauto.
  - rewrite orb_true_iff, IH1, IH2, matches_Alt. tauto.
  - split; [constructor | reflexivity].
Qed.

Lemma star_cons_inv (r : regex) (c : ascii) (s : string) :
  matches (Star r) (String c s) ->
  exists s1 s2, s = s1 ++ s2 /\ matches r (String c s1) /\ matches (Star r) s2.
Proof.
  intros H. remember (Star r) as r' eqn:Er. remember (String c s) as w eqn:Ew.
  induction H as [| | | | | |r0 s1 s2 H1 _ H2 IH2]; try discriminate.
  injection Er as ->. destruct s1 as [|c1 s1]; simpl in Ew.
  - by apply IH2.
  - injection Ew as -> <-. by exists s1, s2.
Qed.

Lemma deriv_matches (r : regex) (c : ascii) (s : string) :
  matches (deriv c r) s <-> matches r (String c s).
Proof.
  revert s.
  induction r as [| |p|r1 IH1 r2 IH2|r1 IH1 r2 IH2|r IH]; intros s; simpl.
  - split; by intros ?%matches_Void.
  - rewrite matches_Eps. split; [by intros ?%matches_Void | discriminate].
  - rewrite matches_Class. destruct (p c) eqn:Hp.
    + rewrite matches_Eps. split.
      * intros ->. eauto.
      * intros (c' & E & _). by injection E.
    + split; [by intros ?%matches_Void |].
      intros (c' & E & Hc'). injection E as -> _. congruence.
  - assert (Hcat : matches (Cat (deriv c r1) r2) s <->
                   exists s1 s2, s = s1 ++ s2 /\ matches r1 (String c s1) /\ matches r2 s2).
    { rewrite matches_Cat. by setoid_rewrite IH1. }
    assert (Hinv : matches (Cat r1 r2) (String c s) <->
                   (exists s1 s2, s = s1 ++ s2 /\ matches r1 (String c s1) /\ matches r2 s2)
                   \/ (matches r1 "" /\ matches r2 (String c s))).
    { rewrite matches_Cat. split.
      - intros (s1 & s2 & E & H1 & H2). destruct s1 as [|c1 s1]; simpl in E.
        + right. by subst s2.
        + injection E as -> ->. left. eauto.
      - intros [(s1 & s2 & -> & H1 & H2)|[H1 H2]].
        + by exists (String c s1), s2.
        + by exists "", (String c s). }
    rewrite Hinv. destruct (nullable r1) eqn:Hn.
    + rewrite matches_Alt, Hcat, IH2.
      apply nullable_matches in Hn. tauto.
    + rewrite Hcat. split; [tauto |]. intros [H|[H _]]; [done |].
      apply nullable_matches in H. congruence.
  - rewrite !matches_Alt, IH1, IH2. tauto.
  - rewrite matches_Cat. setoid_rewrite IH. split.
    + intros (s1 & s2 & -> & H1 & H2).
      change (String c (s1 ++ s2)) with (String c s1 ++ s2). by constructor.
    + apply star_cons_inv.
Qed.

Lemma test_matches (r : regex) (s : string) : test r s = true <-> matches r s.
Proof.
  revert r. induction s as [|c s IH]; intros r; simpl.
  - apply nullable_matches.
  - rewrite IH. apply deriv_matches.
Qed.

Lemma matches_Lit (lit s : string) : matches (Lit lit) s <-> s = lit.
Proof.
  revert s. induction lit as [|c lit IH]; intros s; simpl.
  - apply matches_Eps.
  - rewrite matches_Cat. setoid_rewrite matches_Class. setoid_rewrite IH. split.
    + intros (s1 & s2 & -> & (c' & -> & Hc) & ->).
      apply Ascii.eqb_eq in Hc as <-. reflexivity.
    + intros ->. exists (String c ""), lit. repeat split.
      exists c. split; [done | apply Ascii.eqb_refl].
Qed.

Lemma matches_Star_Class (p : ascii -> bool) (s : string) :
  matches (Star (Class p)) s <-> all_chars p s = true.
Proof.
  split.
  - intros H. remember (Star (Class p)) as r eqn:Er.
    induction H as [| | | | | |r0 s1 s2 H1 _ H2 IH2]; try discriminate; [reflexivity |].
    injection Er as ->. apply matches_Class in H1 as (c & -> & Hc).
    simpl. rewrite andb_true_iff. auto.
  - induction s as [|c s IH]; simpl; [constructor |].
    rewrite andb_true_iff. intros [Hc Hs].
    change (String c s) with (String c "" ++ s).
    constructor; [by constructor | auto].
Qed.

Lemma matches_Plus_Class (p : ascii -> bool) (s : string) :
  matches (Plus (Class p)) s <-> s <> "" /\ all_chars p s = true.
Proof.
  unfold Plus. rewrite matches_Cat. setoid_rewrite matches_Class.
  setoid_rewrite matches_Star_Class. split.
  - intros (s1 & s2 & -> & (c & -> & Hc) & Hs). simpl.
    rewrite andb_true_iff. by repeat split.
  - intros [Hne Hall]. destruct s as [|c s]; [done |]. simpl in Hall.
    apply andb_true_iff in Hall as [Hc Hs].
    exists (String c ""), s. eauto.
Qed.

End RegexFacts.

(** ** The relay: the serving endpoint and the start-up function *)
Module ServerFacts.
Import JS Server RegexFacts.

(** The filenames the pattern accepts. *)
Lemma profile_filename_language (f : string) :
  Regex.test profile_filename_re f = true <->
  exists a d h,
    f = "profile-" ++ a ++ "-" ++ d ++ "-" ++ h ++ "-converted.json" /\
    (a <> "" /\ Regex.all_chars Regex.hex_upper_dash a = true) /\
    (d <> "" /\ Regex.all_chars Regex.digit d = true) /\
    (h <> "" /\ Regex.all_chars Regex.hex_upper h = true).
Proof.
  rewrite test_matches. unfold profile_filename_re. split.
  - intros H.
    apply matches_Cat in H as (s0 & t0 & -> & H0 & H). apply matches_Lit in H0 as ->.
    apply matches_Cat in H as (a & t1 & -> & Ha & H). apply matches_Plus_Class in Ha.
    apply matches_Cat in H as (s2 & t2 & -> & H2 & H). apply matches_Lit in H2 as ->.
    apply matches_Cat in H as (d & t3 & -> & Hd & H). apply matches_Plus_Class in Hd.
    apply matches_Cat in H as (s4 & t4 & -> & H4 & H). apply matches_Lit in H4 as ->.
    apply matches_Cat in H as (h & t5 & -> & Hh & H). apply matches_Plus_Class in Hh.
    apply matches_Lit in H as ->.
    exists a, d, h. repeat split; tauto.
  - intros (a & d & h & -> & Ha & Hd & Hh).
    apply Regex.m_cat; [by apply matches_Lit |].
    apply Regex.m_cat; [by apply matches_Plus_Class |].
    apply Regex.m_cat; [by apply matches_Lit |].
    apply Regex.m_cat; [by apply matches_Plus_Class |].
    apply Regex.m_cat; [by apply matches_Lit |].
    apply Regex.m_cat; [by apply matches_Plus_Class |].
    by apply matches_Lit.
Qed.

Example accepted_filename :
  Regex.test profile_filename_re "profile-0A1B-17-C0FFEE-converted.json" = true.
Proof. reflexivity. Qed.

Example rejected_traversal :
  Regex.test profile_filename_re "../../etc/passwd" = false.
Proof. reflexivity. Qed.

Example rejected_lower_case :
  Regex.test profile_filename_re "profile-0a1b-17-c0ffee-converted.json" = false.
Proof. reflexivity. Qed.

Example basename_examples :
  basename "/work/profile-AB-1-C-converted.json" = "profile-AB-1-C-converted.json" /\
  basename "/work/traces/" = "traces" /\
  basename "plain.cpuprofile" = "plain.cpuprofile" /\
  basename "/" = "" /\ basename "" = "".
Proof. repeat split. Qed.

Example replace_suffix_examples :
  replace_suffix ".cpuprofile" "-converted.json" "profile-AB-1-C.cpuprofile"
    = "profile-AB-1-C-converted.json" /\
  replace_suffix ".cpuprofile" "-converted.json" "a.cpuprofile.txt" = "a.cpuprofile.txt".
Proof. split; reflexivity. Qed.

(** The transform endpoint on a relay that has the converted file, and on
    one whose CLI fails. *)
Example post_transform_examples :
  let answer :=
    @post_transform sample_platform "/work"
      {[ "/work/p-converted.json" := File "{}" ]}
      (fun _ => {| exit_code := Some 0%Z; child_stdout := "done"; child_stderr := "" |})
      (Some "/data/p.cpuprofile") in
  let failed :=
    @post_transform sample_platform "/work" ∅
      (fun _ => {| exit_code := Some 1%Z; child_stdout := ""; child_stderr := "boom" |})
      (Some "/data/p.cpuprofile") in
  status_of answer = 200 /\
  (exists body, answer = Json 200 body /\
     j_outputFilename body = Some "p-converted.json" /\
     j_outputBase64 body = Some "b64:{}" /\
     j_outputPath body = Some "/work/p-converted.json") /\
  (exists body, failed = Json 500 body /\
     j_error body = Some "transform_failed" /\ j_stderr body = Some "boom") /\
  @post_transform sample_platform "/work" ∅
    (fun _ => {| exit_code := Some 0%Z; child_stdout := ""; child_stderr := "" |}) None
    = Json 400 (json_error "missing_path").
Proof.
  split; [by vm_compute |]. split; [eexists; by vm_compute |].
  split; [eexists; by vm_compute |]. by vm_compute.
Qed.

(** Only a request to the open endpoint writes the cache, and it writes the
    posted path under its base name. *)
Lemma handle_cache `{Platform} cwd serverPort cache fs req f p :
  (handle cwd serverPort cache fs req).1 !! f = Some p ->
  cache !! f = Some p \/
  (exists oc, req = PostOpen (Some p) oc) /\ truthy p = true /\ basename p = f.
Proof.
  destruct req as [body sp|filename|body oc]; simpl; auto.
  unfold post_open. destruct (truthy (default "" body)) eqn:Ht; simpl; auto.
  destruct oc as [e|]; cbn [fst];
    rewrite lookup_insert; case_decide as Hf; auto;
    intros [= <-]; right; (destruct body as [q|]; simpl in *; [|done]); eauto.
Qed.

(** Every entry of the cache was put there by an earlier open request. *)
Lemma serve_cache `{Platform} cwd serverPort reqs cache f p :
  (serve cwd serverPort cache reqs).1 !! f = Some p ->
  cache !! f = Some p \/
  (exists fs oc, (fs, PostOpen (Some p) oc) ∈ reqs) /\ truthy p = true /\ basename p = f.
Proof.
  revert cache. induction reqs as [|[fs req] reqs IH]; intros cache; simpl; auto.
  destruct (handle cwd serverPort cache fs req) as [cache1 resp] eqn:Hh.
  destruct (serve cwd serverPort cache1 reqs) as [cache2 resps] eqn:Hs. simpl.
  intros Hp. specialize (IH cache1). rewrite Hs in IH. simpl in IH.
  destruct (IH Hp) as [Hc|[(fs0 & oc & Hin) ?]].
  - pose proof (handle_cache cwd serverPort cache fs req f p) as Hc'.
    rewrite Hh in Hc'. destruct (Hc' Hc) as [?|[[oc ->] ?]]; auto.
    right. split; [|done]. exists fs, oc. apply list_elem_of_here.
  - right. split; [|done]. exists fs0, oc. by apply list_elem_of_further.
Qed.

(** What the serving endpoint answers, by the three tests it makes. *)
Lemma get_profile_cases (fs : filesystem) (cache : gmap string string) (filename : string) :
  (Regex.test profile_filename_re filename = false ->
     get_profile fs cache filename = Json 400 (json_error "invalid_filename")) /\
  (Regex.test profile_filename_re filename = true ->
     (forall p, cache !! filename = Some p -> existsSync fs p = false) ->
     get_profile fs cache filename = Json 404 (json_error "not_found")) /\
  (forall status ct content,
     get_profile fs cache filename = Sent status ct content ->
     status = 200 /\ Regex.test profile_filename_re filename = true /\
     exists p, cache !! filename = Some p /\ truthy p = true /\
               existsSync fs p = true /\ fs !! p = Some (File content)).
Proof.
  unfold get_profile. destruct (Regex.test profile_filename_re filename) eqn:Ht; simpl.
  - split; [discriminate |]. split.
    + intros _ Hno. destruct (cache !! filename) as [p|] eqn:Hc; simpl; [|done].
      rewrite (Hno p eq_refl). by rewrite orb_true_r.
    + intros status ct content.
      destruct (cache !! filename) as [p|] eqn:Hc; simpl; [|discriminate].
      destruct (truthy p) eqn:Hp; simpl; [|discriminate].
      destruct (existsSync fs p) eqn:He; simpl; [|discriminate].
      unfold readFileSync. destruct (fs !! p) as [[c|]|] eqn:Hf; try discriminate.
      intros [= <- <- <-]. repeat split; eauto 6.
  - split; [done |]. split; [discriminate |]. discriminate.
Qed.

(** C1. A GET of [/rozenite/hermes/profile/:filename], arriving after any
    requests at all, answers with file content only if the filename matches
    the pattern, the cache holds a path for it and that path exists, and then
    the content is that of the cached path, which an earlier request to the
    open endpoint posted and whose base name is the filename.  A filename
    outside the pattern gets 400; one inside it with no cached path that
    exists gets 404.  The request leaves the cache as it was. *)
Theorem get_profile_serves_only_registered `{Platform} (cwd : string)
    (serverPort : option N) (reqs : list (filesystem * request))
    (fs : filesystem) (filename : string) :
  let cache := (serve cwd serverPort ∅ reqs).1 in
  let answer := handle cwd serverPort cache fs (GetProfile filename) in
  answer.1 = cache /\
  (Regex.test profile_filename_re filename = false ->
     answer.2 = Json 400 (json_error "invalid_filename")) /\
  (Regex.test profile_filename_re filename = true ->
     (forall p, cache !! filename = Some p -> existsSync fs p = false) ->
     answer.2 = Json 404 (json_error "not_found")) /\
  (Regex.test profile_filename_re filename = true ->
     (forall fs0 oc p, (fs0, PostOpen (Some p) oc) ∈ reqs -> basename p = filename ->
                       existsSync fs p = false) ->
     answer.2 = Json 404 (json_error "not_found")) /\
  (forall status ct content,
     answer.2 = Sent status ct content ->
     status = 200 /\ Regex.test profile_filename_re filename = true /\
     exists p, cache !! filename = Some p /\ existsSync fs p = true /\
               fs !! p = Some (File content) /\ basename p = filename /\
               exists fs0 oc, (fs0, PostOpen (Some p) oc) ∈ reqs).
Proof.
  intros cache answer. subst answer. cbn [handle fst snd].
  destruct (get_profile_cases fs cache filename) as (H400 & H404 & H200).
  assert (Hreg : forall p, cache !! filename = Some p ->
            basename p = filename /\ exists fs0 oc, (fs0, PostOpen (Some p) oc) ∈ reqs).
  { intros p Hp. subst cache. apply serve_cache in Hp as [Hp|[Hin [_ Hb]]]; [|done].
    by rewrite lookup_empty in Hp. }
  split; [reflexivity |]. split; [exact H400 |]. split; [exact H404 |]. split.
  - intros Ht Hno. apply H404; [done |]. intros p Hp.
    destruct (Hreg p Hp) as (Hb & fs0 & oc & Hin). eauto.
  - intros status ct content Hs.
    destruct (H200 _ _ _ Hs) as (-> & Ht & p & Hp & _ & He & Hf).
    destruct (Hreg p Hp) as (Hb & Hin). repeat split; [done |]. eauto 8.
Qed.

(** The registration is what opens the door: the same request is refused
    before the open request and served after it. *)
Example served_after_open `{Platform} :
  let f := "profile-AB-1-C-converted.json" in
  let p := "/work/" ++ f in
  let fs : filesystem := {[ p := File "{}" ]} in
  (serve "/work" (Some 9337) ∅ [(fs, GetProfile f)]).2
    = [Json 404 (json_error "not_found")] /\
  (serve "/work" (Some 9337) ∅ [(fs, PostOpen (Some p) None); (fs, GetProfile f)]).2 !! 1%nat
    = Some (Sent 200 "application/json" "{}").
Proof. split; vm_compute; reflexivity. Qed.

(** In every schedule of calls, whether awaited or not, the configuration
    is imported at most once and at most one listener is started, on the
    configured port. *)
Lemma startup_run_single_listener `{Platform} (evs : list startup_event) :
  let st := (startup_run initial evs).1 in
  (config_imports st <= 1)%nat /\
  (listeners st = [] \/ listeners st = [DEFAULT_PORT]).
Proof.
  set (Inv := fun st : module_state =>
    (started st = false /\ st = initial) \/
    (started st = true /\ config_imports st = 1%nat /\
     ((awaiting st = true /\ listeners st = []) \/
      (awaiting st = false /\ listeners st = [DEFAULT_PORT])))).
  assert (Hstep : forall st ev, Inv st -> Inv (startup_step st ev).1).
  { intros st ev [[Hs ->]|(Hs & Hc & Hl)]; destruct ev; simpl.
    - right. simpl. auto.
    - left. auto.
    - unfold call_start. rewrite Hs. right. auto.
    - destruct Hl as [[Ha Hl]|[Ha Hl]]; rewrite Ha; simpl.
      + right. rewrite Hs, Hc, Hl. auto.
      + right. auto. }
  assert (Hrun : forall evs st, Inv st -> Inv (startup_run st evs).1).
  { clear evs. intros evs. induction evs as [|ev evs IH]; intros st Hst; simpl; [done |].
    specialize (Hstep st ev Hst). destruct (startup_step st ev) as [st' r].
    specialize (IH st' Hstep). destruct (startup_run st' evs) as [st'' rs]. done. }
  intros st. assert (Hst : Inv st) by (apply Hrun; left; done).
  destruct Hst as [[_ ->]|(_ & -> & [[_ ->]|[_ ->]])]; simpl; auto.
Qed.

(** A call that is not awaited: made while the first call is still
    importing the configuration, the second call also returns at once a
    null server, but the port is recorded only when the import resolves,
    and the early caller gets none. *)
Example early_call_returns_no_port `{Platform} :
  (startup_run initial [CallStart; CallStart; ImportResolves]).2
    = [ None;
        Some {| port := None; server := None |};
        Some {| port := Some DEFAULT_PORT; server := Some (HttpServer DEFAULT_PORT) |} ].
Proof. reflexivity. Qed.


End ServerFacts.

(** ** The in-app hook *)
Module RuntimeFacts.
Import JS Bridge Runtime RegexFacts.

(** *** Splitting a path at its slashes *)

Example split_examples :
  split "/" "/data/cache/p.cpuprofile" = [""; "data"; "cache"; "p.cpuprofile"] /\
  split "/" "" = [""] /\ split "/" "/data/" = [""; "data"; ""].
Proof. repeat split. Qed.

Lemma split_not_nil (p : string) : split "/" p <> [].
Proof.
  destruct p as [|c p]; simpl; [done |].
  destruct (Ascii.eqb c "/"); [done |]. by destruct (split "/" p).
Qed.

Lemma join_split (p : string) : join "/" (split "/" p) = p.
Proof.
  induction p as [|c p IH]; [reflexivity |]. simpl split.
  pose proof (split_not_nil p) as Hne.
  destruct (Ascii.eqb c "/") eqn:Hc.
  - apply Ascii.eqb_eq in Hc as ->.
    destruct (split "/" p) as [|seg segs]; [done |].
    change (join "/" ("" :: seg :: segs)) with ("/" ++ join "/" (seg :: segs)).
    by rewrite IH.
  - destruct (split "/" p) as [|seg segs]; [done |].
    destruct segs as [|seg' segs]; simpl in *; by rewrite IH.
Qed.

Lemma split_no_slash (p : string) : Forall (fun s => no_slash s = true) (split "/" p).
Proof.
  induction p as [|c p IH]; simpl; [by repeat constructor |].
  destruct (Ascii.eqb c "/") eqn:Hc; [by constructor |].
  destruct (split "/" p) as [|seg segs]; [repeat constructor; by (unfold no_slash; simpl; rewrite Hc) |].
  inversion IH as [|? ? Hseg Hsegs]; subst. constructor; [|done].
  unfold no_slash in *. simpl. by rewrite Hc.
Qed.

Lemma join_last (l : list string) (seg : string) :
  last l = Some seg ->
  exists pre, join "/" l = pre ++ seg /\ (pre = "" \/ exists q, pre = q ++ "/").
Proof.
  induction l as [|s l IH]; [done |]. destruct l as [|s' l].
  - intros [= ->]. exists "". auto.
  - intros Hl. destruct (IH Hl) as (pre & Hj & Hpre).
    exists (s ++ "/" ++ pre). split.
    + change (join "/" (s :: s' :: l)) with (s ++ "/" ++ join "/" (s' :: l)).
      rewrite Hj. by rewrite !app_assoc.
    + right. destruct Hpre as [->|[q ->]].
      * exists s. reflexivity.
      * exists (s ++ "/" ++ q). by rewrite !app_assoc.
Qed.

(** The last element of the split is the part of the path after its last
    slash. *)
Lemma pop_split (p : string) :
  exists pre seg,
    pop (split "/" p) = Some seg /\ p = pre ++ seg /\ no_slash seg = true /\
    (pre = "" \/ exists q, pre = q ++ "/").
Proof.
  unfold pop. destruct (last (split "/" p)) as [seg|] eqn:Hl.
  - destruct (join_last _ _ Hl) as (pre & Hj & Hpre). rewrite join_split in Hj.
    exists pre, seg. repeat split; try done.
    pose proof (split_no_slash p) as Hall. rewrite Forall_forall in Hall.
    apply Hall. by apply last_Some_elem_of.
  - apply last_None in Hl. by apply split_not_nil in Hl.
Qed.

(** *** The stop handler *)

Lemma sent_read_profile (env : environment) (path : option string) (e : runtime_event) :
  sent ((read_profile env path).1 ++ [Send e]) = [e].
Proof.
  unfold read_profile. destruct path as [p|]; [|reflexivity].
  destruct (truthy p && has_readFile env); [|reflexivity].
  destruct (readFile env p); [|reflexivity]. by destruct (stat_size env p).
Qed.


(** The event the stop handler sends, whatever the environment does. *)
Lemma stop_sends (env : environment) (payload : option bool) :
  exists d,
    sent (on_stop_profiling env payload) = [ProfileData d] /\
    match race_stop (stop_wins_tie env) (stopProfiling env (default false payload)) with
    | inr e => d = error_data (err_text e)
    | inl path =>
        d = {| filename := Some (suggested_filename path); path := path;
               base64 := (read_profile env path).2.1;
               size := (read_profile env path).2.2;
               mime := Some "application/octet-stream"; error := None |}
    end.
Proof.
  unfold on_stop_profiling.
  destruct (race_stop _ _) as [path|e]; [|by eexists].
  pose proof (sent_read_profile env path) as Hs.
  destruct (read_profile env path) as [calls [b sz]]. simpl in *.
  eexists. split; [apply Hs | reflexivity].
Qed.



(** C3. When the native stop call has not settled after 9000 ms, the
    handler reads no file and sends one profile-data event whose error is
    the timeout message and which carries nothing else. *)
Theorem stop_timeout_reported (env : environment) (payload : option bool) :
  unsettled_after 9000 (stopProfiling env (default false payload)) = true ->
  on_stop_profiling env payload
    = [CallStopProfiling (default false payload);
       Send (ProfileData (error_data "Profiler timeout"))].
Proof.
  unfold on_stop_profiling, race_stop, unsettled_after, stop_timeout_ms.
  destruct (stopProfiling env (default false payload)) as [e|t path|t e|];
    try discriminate; try reflexivity; intros Ht%N.ltb_lt.
  - assert ((t <? 9000) = false) as -> by (apply N.ltb_ge; lia).
    assert ((t =? 9000) = false) as -> by (apply N.eqb_neq; lia).
    by rewrite andb_false_r.
  - assert ((t <? 9000) = false) as -> by (apply N.ltb_ge; lia).
    assert ((t =? 9000) = false) as -> by (apply N.eqb_neq; lia).
    by rewrite andb_false_r.
Qed.

Lemma stop_timeout_reported_witness :
  sent (on_stop_profiling (sample_env None StopPending (Fulfilled "") (Fulfilled 0)) None)
    = [ProfileData (error_data "Profiler timeout")] /\
  sent (on_stop_profiling
          (sample_env None (StopFulfilled 9001 (Some "/data/p.cpuprofile"))
             (Fulfilled "AAAA") (Fulfilled 3)) None)
    = [ProfileData (error_data "Profiler timeout")].
Proof.
  split.
  - rewrite (stop_timeout_reported
               (sample_env None StopPending (Fulfilled "") (Fulfilled 0)) None);
      reflexivity.
  - rewrite (stop_timeout_reported
               (sample_env None (StopFulfilled 9001 (Some "/data/p.cpuprofile"))
                  (Fulfilled "AAAA") (Fulfilled 3)) None);
      reflexivity.
Defined.

(** A stop call that settles before the timer is not reported as a
    timeout. *)
Example stop_in_time :
  sent (on_stop_profiling
          (sample_env None (StopFulfilled 8999 (Some "/data/p.cpuprofile"))
             (Fulfilled "AAAA") (Fulfilled 3)) None)
    = [ProfileData {| filename := Some "p.cpuprofile"; path := Some "/data/p.cpuprofile";
                      base64 := Some "AAAA"; size := Some 3;
                      mime := Some "application/octet-stream"; error := None |}].
Proof. reflexivity. Qed.

(** C7, as stated, fails: when [startProfiling] throws, the handler sends
    no acknowledgement but a profile-data event with the error text. *)
Lemma start_failure_not_acknowledged :
  sent (on_start_profiling
          (sample_env (Some (ThrownError "Error" "Profiler is not available"))
             StopPending (Fulfilled "") (Fulfilled 0)))
    = [ProfileData (error_data "Profiler is not available")].
Proof. reflexivity. Qed.

(** C7, as the code has it.  The start handler first calls
    [startProfiling] and then sends exactly one event: when the call has
    returned, so that the capture has begun, profiling-started stamped with
    the current time; when the call has thrown, profile-data with the text
    of the error and nothing else. *)
Theorem start_acknowledged_or_reported (env : environment) :
  exists ev,
    on_start_profiling env = [CallStartProfiling; Send ev] /\
    sent (on_start_profiling env) = [ev] /\
    (startProfiling env = None -> ev = ProfilingStarted (now env)) /\
    (forall e, startProfiling env = Some e -> ev = ProfileData (error_data (err_text e))) /\
    (ev = ProfilingStarted (now env) <-> startProfiling env = None).
Proof.
  unfold on_start_profiling. destruct (startProfiling env) as [e|]; eexists;
    (split; [reflexivity |]); (split; [reflexivity |]).
  - split; [discriminate |]. split; [by intros ? [= ->] |]. split; discriminate.
  - split; [done |]. split; [discriminate |]. done.
Qed.

(** C10. When the stop call gives a path in time, the filename of the
    event is [suggested_filename] of it: the part after the last slash,
    which holds no slash, unless that part is empty (the path is empty or
    ends in a slash), and then ['hermes-profile.trace']; the same default
    stands in for a path that is [undefined]. *)
Theorem stop_filename_is_last_segment (env : environment) (payload : option bool)
    (path : option string) :
  race_stop (stop_wins_tie env) (stopProfiling env (default false payload)) = inl path ->
  (exists d, sent (on_stop_profiling env payload) = [ProfileData d] /\
             filename d = Some (suggested_filename path)) /\
  match path with
  | Some p =>
      exists pre seg,
        p = pre ++ seg /\ no_slash seg = true /\
        (pre = "" \/ exists q, pre = q ++ "/") /\
        suggested_filename path = (if truthy seg then seg else "hermes-profile.trace") /\
        (p = "" -> suggested_filename path = "hermes-profile.trace")
  | None => suggested_filename path = "hermes-profile.trace"
  end.
Proof.
  intros Hrace. split.
  - destruct (stop_sends env payload) as (d & Hsent & Hd). rewrite Hrace in Hd.
    exists d. split; [done |]. by subst d.
  - destruct path as [p|]; [|reflexivity].
    destruct (pop_split p) as (pre & seg & Hpop & Hp & Hns & Hpre).
    exists pre, seg. repeat split; try done.
    + unfold suggested_filename. simpl. by rewrite Hpop.
    + intros ->. reflexivity.
Qed.

Lemma stop_filename_is_last_segment_witness :
  exists d,
    sent (on_stop_profiling
            (sample_env None (StopFulfilled 40 (Some "/data/user/0/app/cache/sampling.cpuprofile"))
               (Fulfilled "AAAA") (Fulfilled 3)) None)
      = [ProfileData d] /\
    filename d = Some "sampling.cpuprofile".
Proof.
  exact (proj1 (stop_filename_is_last_segment
                  (sample_env None
                     (StopFulfilled 40 (Some "/data/user/0/app/cache/sampling.cpuprofile"))
                     (Fulfilled "AAAA") (Fulfilled 3))
                  None (Some "/data/user/0/app/cache/sampling.cpuprofile") eq_refl)).
Defined.

Example filename_of_empty_path : suggested_filename (Some "") = "hermes-profile.trace".
Proof. reflexivity. Qed.

Example filename_of_directory_path : suggested_filename (Some "/data/") = "hermes-profile.trace".
Proof. reflexivity. Qed.

Example filename_of_bare_name : suggested_filename (Some "a.cpuprofile") = "a.cpuprofile".
Proof. reflexivity. Qed.

End RuntimeFacts.

(** ** The panel *)
Module PanelFacts.
Import JS Bridge Panel.

(** *** [tryEndpoints] *)

Lemma try_loop_cons (fetch : string -> string -> fetch_outcome) (path url : string)
    (rest : list string) (lastErr : option string) :
  try_loop fetch path (url :: rest) lastErr =
    match attempt_error (fetch url path) with
    | None => ([url], TryOk (response_json (fetch url path)))
    | Some e =>
        (url :: (try_loop fetch path rest (Some e)).1,
         (try_loop fetch path rest (Some e)).2)
    end.
Proof.
  simpl. destruct (fetch url path) as [e|status body]; simpl.
  - by destruct (try_loop fetch path rest (Some (err_text e))).
  - destruct (negb (res_ok status) || ok_is_false (default Server.json_empty body));
      [|reflexivity].
    by destruct (try_loop fetch path rest _).
Qed.

(** The loop in general: it fetches a prefix of the candidates, in order;
    it succeeds at the first that answers with success, and fails only
    when all have failed, with the error of the last. *)
Lemma try_loop_spec (fetch : string -> string -> fetch_outcome) (path : string)
    (urls : list string) (lastErr : option string) :
  let result := try_loop fetch path urls lastErr in
  match result.2 with
  | TryOk json =>
      exists before url after,
        urls = (before ++ url :: after)%list /\ result.1 = (before ++ [url])%list /\
        Forall (fun u => attempt_error (fetch u path) <> None) before /\
        attempt_error (fetch url path) = None /\
        json = response_json (fetch url path)
  | TryFail err =>
      result.1 = urls /\
      Forall (fun u => attempt_error (fetch u path) <> None) urls /\
      err = match last urls with
            | Some u => attempt_error (fetch u path)
            | None => lastErr
            end
  end.
Proof.
  revert lastErr. induction urls as [|url rest IH]; intros lastErr.
  - cbn. auto.
  - cbn zeta. rewrite try_loop_cons.
    destruct (attempt_error (fetch url path)) as [e|] eqn:He; cbn [fst snd].
    + specialize (IH (Some e)). cbn zeta in IH.
      destruct (try_loop fetch path rest (Some e)) as [fetched [json|err]]; cbn [fst snd] in *.
      * destruct IH as (before & u & after & -> & -> & Hb & Hu & Hj).
        exists (url :: before), u, after. repeat split; try done.
        constructor; [congruence | done].
      * destruct IH as (-> & Hall & ->). repeat split.
        -- constructor; [congruence | done].
        -- destruct rest as [|u rest]; [cbn; by rewrite He |].
           rewrite last_cons_cons. destruct (last (u :: rest)) eqn:Hl; [done |].
           by apply last_None in Hl.
    + exists [], url, rest. repeat split; auto.
Qed.

(** What a successful attempt against the relay has received. *)
Lemma relay_success `{Platform} (net : string -> thrown + relay) (url path : string) :
  attempt_error (relay_fetch net url path) = None ->
  exists json,
    relay_fetch net url path = Responded 200 (Some json) /\
    converted_answer net url path json /\ Server.j_ok json = Some true.
Proof.
  unfold relay_fetch, converted_answer. destruct (net url) as [e|r] eqn:Hn; [done |].
  unfold Server.post_transform. change (default "" (Some path)) with path.
  destruct (truthy path); cbn [negb]; [|done].
  destruct (Server.exit_code (spawn_cli r path)) as [code|] eqn:Hc; [|done].
  destruct (decide (code = 0%Z)) as [->|Hne].
  2:{ rewrite bool_decide_eq_false_2 by congruence. by cbn. }
  rewrite bool_decide_eq_true_2 by done. cbn [negb].
  unfold Server.readFileSync.
  destruct (fs r !! _) as [[content|]|] eqn:Hf; [|done..].
  intros _. eexists. split; [reflexivity |]. split; [|reflexivity].
  exists r, content. cbn. rewrite Hc. repeat split; done.
Qed.

(** C6. The panel tries [localhost] first and [127.0.0.1] second, on the
    configured port, and nothing else.  If the first answers with success
    it is the only one fetched; if not, the second is fetched too.  The
    result is a success exactly when one of them answered with success, and
    it then holds the answer of the first that did, which carries the
    converted content encoded and the name of the output file; it is a
    failure only when both have failed, and it then holds the error of the
    second. *)
Theorem try_endpoints_first_success `{Platform} (net : string -> thrown + relay)
    (path : string) :
  let fetch := relay_fetch net in
  let localhost :=
    "http://localhost:" ++ num_to_string DEFAULT_PORT ++ "/rozenite/hermes/transform" in
  let loopback :=
    "http://127.0.0.1:" ++ num_to_string DEFAULT_PORT ++ "/rozenite/hermes/transform" in
  let result := tryEndpoints fetch path in
  match attempt_error (fetch localhost path) with
  | None =>
      result.1 = [localhost] /\
      exists json, result.2 = TryOk json /\ converted_answer net localhost path json
  | Some e1 =>
      result.1 = [localhost; loopback] /\
      match attempt_error (fetch loopback path) with
      | None =>
          exists json, result.2 = TryOk json /\ converted_answer net loopback path json
      | Some e2 => result.2 = TryFail (Some e2)
      end
  end.
Proof.
  intros fetch localhost loopback result. subst result.
  unfold tryEndpoints, candidates. fold localhost loopback.
  rewrite try_loop_cons. destruct (attempt_error (fetch localhost path)) as [e1|] eqn:H1.
  - rewrite try_loop_cons. destruct (attempt_error (fetch loopback path)) as [e2|] eqn:H2.
    + by cbn.
    + cbn [fst snd]. split; [reflexivity |].
      destruct (relay_success net loopback path H2) as (json & Hj & Hc & _).
      exists json. split; [|done]. subst fetch. cbn beta. by rewrite Hj.
  - cbn [fst snd]. split; [reflexivity |].
    destruct (relay_success net localhost path H1) as (json & Hj & Hc & _).
    exists json. split; [|done]. subst fetch. cbn beta. by rewrite Hj.
Qed.

(** With the relay reachable at the first address only that one is asked;
    with nothing listening both are asked and the failure of the second
    is the result. *)
Example try_endpoints_examples :
  let up (_ : string) : thrown + relay := inr sample_relay in
  let down (_ : string) : thrown + relay := inl (ThrownError "TypeError" "Failed to fetch") in
  (@tryEndpoints sample_platform (@relay_fetch sample_platform up) "/data/p.cpuprofile").1
    = ["http://localhost:9337/rozenite/hermes/transform"] /\
  @tryEndpoints sample_platform (@relay_fetch sample_platform down) "/data/p.cpuprofile"
    = (["http://localhost:9337/rozenite/hermes/transform";
        "http://127.0.0.1:9337/rozenite/hermes/transform"],
       TryFail (Some "Failed to fetch")).
Proof. split; vm_compute; reflexivity. Qed.

(** *** Flags and timers through the handlers *)

Lemma on_profile_data_flags now_id now_received data st :
  let st' := (on_profile_data now_id now_received data st).1 in
  isProfiling st' = false /\ isStopping st' = false /\ pendingStopTimer st' = None /\
  timers st' = match pendingStopTimer st with
               | Some h => delete h (timers st)
               | None => timers st
               end.
Proof.
  unfold on_profile_data.
  destruct (pendingStopTimer st) as [h|] eqn:Hp;
    destruct (truthy_opt (error data)); [| |by cbn; rewrite ?Hp|];
    try (destruct (truthy_opt (path data))); cbn; rewrite ?Hp; auto.
Qed.

Lemma onStop_sends (client : bool) (st : panel) :
  client = true -> isStopping st = false ->
  (onStop client st).2 = [Send (StopProfiling (Some false))] /\
  isStopping (onStop client st).1 = true /\ isProfiling (onStop client st).1 = false /\
  pendingStopTimer (onStop client st).1 = Some (next_timer st) /\
  timers (onStop client st).1
    = <[next_timer st := {| callback := StopTimedOut; delay_ms := 10000 |}]>
        (match pendingStopTimer st with
         | Some h => delete h (timers st)
         | None => timers st
         end).
Proof.
  intros -> Hs. unfold onStop. rewrite Hs. cbn.
  destruct (pendingStopTimer st); cbn; auto.
Qed.

Lemma onStop_quiet (client : bool) (st : panel) :
  client = false \/ isStopping st = true -> onStop client st = (st, []).
Proof.
  unfold onStop. intros [->| ->]; [reflexivity |]. by destruct client.
Qed.

Lemma onStart_result (client : bool) (st : panel) :
  let st' := (onStart client st).1 in
  isStopping st' = isStopping st /\ pendingStopTimer st' = pendingStopTimer st /\
  timers st' = timers st /\ stop_messages (onStart client st).2 = [] /\
  (isProfiling st' = isProfiling st \/ isProfiling st' = true).
Proof.
  unfold onStart. destruct (negb client || isProfiling st); cbn; auto 10.
Qed.

(** What one event does to the stopping flag and to the stop messages when
    it is not one of the two that clear the flag. *)
Lemma step_keeps_stopping (client : bool) (st : panel) (ev : event) :
  isStopping st = true -> resets_stopping ev = false ->
  isStopping (step client st ev).1 = true /\ stop_messages (step client st ev).2 = [].
Proof.
  intros Hs Hev. destruct ev as [|[t|d] a b|h|tid r|i|ok]; try discriminate; cbn.
  - unfold press. by rewrite Hs.
  - by destruct client.
  - destruct r; cbn; auto.
  - unfold press_open. destruct (traces st !! i) as [t|]; [|done].
    by destruct (truthy_opt (transformedPath t)).
  - by destruct ok.
Qed.

Lemma run_keeps_stopping (client : bool) (evs : list event) (st : panel) :
  isStopping st = true -> forallb (fun ev => negb (resets_stopping ev)) evs = true ->
  isStopping (run client st evs).1 = true /\ stop_messages (run client st evs).2 = [].
Proof.
  revert st. induction evs as [|ev evs IH]; intros st Hs Hq; [done |].
  simpl in Hq. apply andb_true_iff in Hq as [Hev Hq]. apply negb_true_iff in Hev.
  destruct (step_keeps_stopping client st ev Hs Hev) as [Hs' Hm].
  simpl. destruct (step client st ev) as [st' out]. simpl in *.
  destruct (IH st' Hs' Hq) as [Hs'' Hm'].
  destruct (run client st' evs) as [st'' outs]. simpl in *.
  split; [done |]. unfold stop_messages in *. by rewrite List.filter_app, Hm, Hm'.
Qed.

(** *** The stop timer *)

Lemma setTimeout_ClearStatus_keeps ms st :
  only_pending_stop_timer st -> only_pending_stop_timer (setTimeout ClearStatus ms st).2.
Proof.
  intros Hinv h t. cbn. rewrite lookup_insert. case_decide as Hh.
  - intros [= <-]. discriminate.
  - apply Hinv.
Qed.

Lemma step_only_pending_stop_timer (client : bool) (st : panel) (ev : event) :
  only_pending_stop_timer st -> only_pending_stop_timer (step client st ev).1.
Proof.
  intros Hinv. destruct ev as [|[ts|d] a b|h|tid r|i|ok]; cbn.
  - unfold press. destruct (isStopping st) eqn:Hs; [done |].
    destruct (isProfiling st).
    + destruct client; [|by rewrite onStop_quiet; auto].
      destruct (onStop_sends true st eq_refl Hs) as (_ & _ & _ & Hp & Ht).
      intros h t. rewrite Hp, Ht, lookup_insert. case_decide as Hh; [by subst |].
      destruct (pendingStopTimer st) as [h0|] eqn:Hp0.
      * rewrite lookup_delete. case_decide as Hh0; [done |].
        intros Hl Hc. specialize (Hinv h t Hl Hc). congruence.
      * intros Hl Hc. specialize (Hinv h t Hl Hc). congruence.
    + destruct (onStart_result client st) as (_ & Hp & Ht & _).
      intros h t. rewrite Hp, Ht. apply Hinv.
  - by destruct client.
  - destruct client; [|done].
    destruct (on_profile_data_flags a b d st) as (_ & _ & Hp & Ht).
    intros h t. rewrite Hp, Ht. destruct (pendingStopTimer st) as [h0|] eqn:Hp0.
    + rewrite lookup_delete. case_decide as Hh0; [done |].
      intros Hl Hc. specialize (Hinv h t Hl Hc). congruence.
    + intros Hl Hc. specialize (Hinv h t Hl Hc). congruence.
  - unfold on_timer. destruct (timers st !! h) as [t0|] eqn:Hh; [|done].
    assert (Hdel : forall h' t, delete h (timers st) !! h' = Some t ->
                                callback t = StopTimedOut -> pendingStopTimer st = Some h').
    { intros h' t. rewrite lookup_delete. case_decide; [done | apply Hinv]. }
    by destruct (callback t0).
  - destruct r as [json|err]; cbn; [|done].
    intros h t. cbn. rewrite lookup_insert. case_decide as Hh.
    + intros [= <-]. discriminate.
    + apply Hinv.
  - unfold press_open. destruct (traces st !! i) as [t|]; [|done].
    by destruct (truthy_opt (transformedPath t)).
  - destruct ok; cbn; intros h t; cbn; rewrite lookup_insert;
      (case_decide as Hh; [intros [= <-]; discriminate | apply Hinv]).
Qed.

Lemma run_only_pending_stop_timer (client : bool) (evs : list event) (st : panel) :
  only_pending_stop_timer st -> only_pending_stop_timer (run client st evs).1.
Proof.
  revert st. induction evs as [|ev evs IH]; intros st Hinv; [done |].
  simpl. pose proof (step_only_pending_stop_timer client st ev Hinv) as Hstep.
  destruct (step client st ev) as [st' out]. specialize (IH st' Hstep).
  by destruct (run client st' evs).
Qed.

Lemma initial_only_pending_stop_timer : only_pending_stop_timer initial.
Proof. intros h t. cbn. by rewrite lookup_empty. Qed.

(** C4. Whatever the profile-data event carries, and in whatever state it
    finds the panel, its handler leaves both flags false, so that the panel
    is idle and the button reads Start Profiling; the timer the ref points
    to is cleared and the ref is null.  In every state the panel can reach,
    no timer that would end the stopping state is left scheduled. *)
Theorem profile_data_returns_to_idle (now_id now_received : N) (data : profile_data)
    (st : panel) :
  let st' := (on_profile_data now_id now_received data st).1 in
  isProfiling st' = false /\ isStopping st' = false /\
  toggle_of st' = Some Idle /\ button_text st' = "Start Profiling" /\
  pendingStopTimer st' = None /\
  (forall h, pendingStopTimer st = Some h -> timers st' !! h = None) /\
  (forall (client : bool) (evs : list event),
     st = (run client initial evs).1 -> ~ stop_timer_scheduled st').
Proof.
  intros st'. destruct (on_profile_data_flags now_id now_received data st)
    as (Hp & Hs & Hr & Ht). fold st' in Hp, Hs, Hr, Ht.
  split; [done |]. split; [done |].
  split; [unfold toggle_of; by rewrite Hp, Hs |].
  split; [unfold button_text; by rewrite Hp, Hs |].
  split; [done |]. split.
  - intros h Hh. rewrite Ht, Hh. apply lookup_delete_eq.
  - intros client evs Hst (h & t & Hl & Hc).
    assert (Hinv : only_pending_stop_timer st).
    { rewrite Hst. apply run_only_pending_stop_timer, initial_only_pending_stop_timer. }
    rewrite Ht in Hl. destruct (pendingStopTimer st) as [h0|] eqn:Hp0.
    + rewrite lookup_delete in Hl. case_decide as Hh0; [done |].
      specialize (Hinv h t Hl Hc). congruence.
    + specialize (Hinv h t Hl Hc). congruence.
Qed.

(** The error event and the success event alike. *)
Example profile_data_after_stop :
  let stopping := (run true initial [Press; Press]).1 in
  (isStopping stopping = true /\ pendingStopTimer stopping = Some 1%positive) /\
  toggle_of (step true stopping
               (FromRuntime (ProfileData (error_data "Profiler timeout")) 7 7)).1
    = Some Idle /\
  toggle_of (step true stopping
               (FromRuntime (ProfileData
                  {| filename := Some "p.cpuprofile"; path := Some "/data/p.cpuprofile";
                     base64 := Some "AAAA"; size := Some 3;
                     mime := Some "application/octet-stream"; error := None |}) 7 7)).1
    = Some Idle.
Proof. by vm_compute. Qed.

(** C5. An invocation of [onStop] that finds the stopping flag set returns
    without sending and without changing anything; one that sends finds
    the flag clear, sends one stop-profiling message and sets the flag.
    While the flag stays set, that is until a profile-data event or a timer
    runs, no event makes the panel send another stop message. *)
Theorem stop_sent_once (client : bool) (st : panel) :
  (isStopping st = true -> onStop client st = (st, [])) /\
  (forall m, Send m ∈ (onStop client st).2 ->
     isStopping st = false /\ isStopping (onStop client st).1 = true /\
     (onStop client st).2 = [Send (StopProfiling (Some false))]) /\
  (forall evs,
     isStopping st = true ->
     forallb (fun ev => negb (resets_stopping ev)) evs = true ->
     isStopping (run client st evs).1 = true /\
     stop_messages (run client st evs).2 = []).
Proof.
  split; [intros Hs; apply onStop_quiet; auto |]. split.
  - intros m Hm. destruct client.
    2:{ rewrite onStop_quiet in Hm by auto. by apply elem_of_nil in Hm. }
    destruct (isStopping st) eqn:Hs.
    { rewrite onStop_quiet in Hm by auto. by apply elem_of_nil in Hm. }
    destruct (onStop_sends true st eq_refl Hs) as (Hout & Hs' & _). auto.
  - intros evs. apply run_keeps_stopping.
Qed.

(** Two presses of Stop in a row are not possible; calling [onStop] twice
    sends once. *)
Example stop_twice :
  let profiling := (run true initial [Press]).1 in
  let once := onStop true profiling in
  let twice := onStop true once.1 in
  once.2 = [Send (StopProfiling (Some false))] /\ twice = (once.1, []).
Proof. by vm_compute. Qed.

(** C8, as stated, fails: the acknowledgement of a start that arrives after
    Stop was pressed finds the stopping flag set and sets the profiling
    flag, and then both flags are true. *)
Lemma both_flags_after_late_acknowledgement :
  let st := (run true initial
               [Press; Press; FromRuntime (ProfilingStarted 1700000000000) 0 0]).1 in
  isProfiling st = true /\ isStopping st = true /\ toggle_of st = None.
Proof. by vm_compute. Qed.

(** C8, as the code has it.  From a state in which one of idle, profiling
    and stopping holds, every event leads to such a state again (a press of
    the button, which is the start action or the stop action, a
    profile-data event, a timer that runs) provided a profiling-started
    event does not find the stopping flag set.  So does [onStop] called in
    any such state, and [onStart] called in one where the stopping flag is
    clear, as the disabled button ensures. *)
Theorem toggle_preserved (client : bool) (st : panel) (ev : event) :
  is_Some (toggle_of st) ->
  (forall t a b, ev = FromRuntime (ProfilingStarted t) a b -> isStopping st = false) ->
  is_Some (toggle_of (step client st ev).1) /\
  is_Some (toggle_of (onStop client st).1) /\
  (isStopping st = false -> is_Some (toggle_of (onStart client st).1)).
Proof.
  intros Ht Hev.
  assert (Hflags : forall st', isProfiling st' && isStopping st' = false ->
                               is_Some (toggle_of st')).
  { intros st'. unfold toggle_of. destruct (isProfiling st'), (isStopping st'); by eauto. }
  assert (Hst : isProfiling st && isStopping st = false).
  { unfold toggle_of in Ht. by destruct (isProfiling st), (isStopping st). }
  assert (HonStop : isProfiling (onStop client st).1 && isStopping (onStop client st).1 = false).
  { destruct client, (isStopping st) eqn:Hs; try (rewrite onStop_quiet by auto; cbn; by rewrite ?Hs).
    destruct (onStop_sends true st eq_refl Hs) as (_ & _ & -> & _). done. }
  assert (HonStart : isStopping st = false ->
            isProfiling (onStart client st).1 && isStopping (onStart client st).1 = false).
  { intros Hs. destruct (onStart_result client st) as (-> & _). rewrite Hs. apply andb_false_r. }
  split; [|split; [by apply Hflags | intros Hs; by apply Hflags, HonStart]].
  apply Hflags. destruct ev as [|[ts|d] a b|h|tid r|i|ok]; cbn.
  - unfold press. destruct (isStopping st) eqn:Hs; [cbn; by rewrite Hs |].
    destruct (isProfiling st); [exact HonStop | by apply HonStart].
  - destruct client; [|done]. cbn. by rewrite (Hev ts a b eq_refl).
  - destruct client; [|done].
    destruct (on_profile_data_flags a b d st) as (-> & _). done.
  - unfold on_timer. destruct (timers st !! h) as [t0|]; [|done].
    destruct (callback t0); cbn; [apply andb_false_r | done].
  - by destruct r.
  - unfold press_open. destruct (traces st !! i) as [t|]; [|done].
    by destruct (truthy_opt (transformedPath t)).
  - by destruct ok.
Qed.

Lemma toggle_preserved_witness :
  is_Some (toggle_of (step true (run true initial [Press]).1
                        (FromRuntime (ProfilingStarted 1700000000000) 0 0)).1).
Proof.
  refine (proj1 (toggle_preserved true (run true initial [Press]).1
                   (FromRuntime (ProfilingStarted 1700000000000) 0 0) _ _)).
  - vm_compute. eexists. reflexivity.
  - intros t a b _. vm_compute. reflexivity.
Defined.

(** [onStart] itself does not look at the stopping flag. *)
Example onStart_while_stopping :
  let stopping := set_flags false true initial in
  toggle_of stopping = Some Stopping /\ toggle_of (onStart true stopping).1 = None.
Proof. by vm_compute. Qed.

(** The text on the button has three values, and the stopping flag goes
    first. *)
Lemma button_text_cases (st : panel) :
  button_text st =
    (if isStopping st then "Stopping…"
     else if isProfiling st then "Stop Profiling" else "Start Profiling").
Proof. reflexivity. Qed.

End PanelFacts.

(** ** More on the relay: paths, names and how the endpoints compose *)
Module ServerMore.
Import JS Server RegexFacts ServerFacts.

(** *** Strings as lists of characters *)

Lemma list_ascii_app (a b : string) :
  list_ascii_of_string (a ++ b) = (list_ascii_of_string a ++ list_ascii_of_string b)%list.
Proof. induction a as [|c a IH]; simpl; [reflexivity | by rewrite IH]. Qed.

Lemma all_chars_forallb (p : ascii -> bool) (s : string) :
  Regex.all_chars p s = forallb p (list_ascii_of_string s).
Proof. induction s as [|c s IH]; simpl; [reflexivity | by rewrite IH]. Qed.

Lemma all_chars_app (p : ascii -> bool) (a b : string) :
  Regex.all_chars p (a ++ b) = Regex.all_chars p a && Regex.all_chars p b.
Proof. induction a as [|c a IH]; simpl; [reflexivity | by rewrite IH, andb_assoc]. Qed.

Lemma forallb_rev {A : Type} (p : A -> bool) (l : list A) :
  forallb p (rev l) = forallb p l.
Proof.
  induction l as [|x l IH]; simpl; [reflexivity |].
  rewrite forallb_app, IH. simpl. rewrite andb_true_r. apply andb_comm.
Qed.

Lemma length_app (a b : string) :
  String.length (a ++ b) = (String.length a + String.length b)%nat.
Proof. induction a as [|c a IH]; simpl; [reflexivity | by rewrite IH]. Qed.

(** *** [path.basename] *)

Lemma take_segment_no_slash (cs : list ascii) : forallb not_slash (take_segment cs) = true.
Proof.
  induction cs as [|c cs IH]; simpl; [reflexivity |].
  destruct (Ascii.eqb c "/") eqn:Hc; simpl; [reflexivity |].
  unfold not_slash at 1. by rewrite Hc.
Qed.

Lemma take_segment_app (seg rest : list ascii) :
  forallb not_slash seg = true -> take_segment (seg ++ "/"%char :: rest) = seg.
Proof.
  induction seg as [|c seg IH]; simpl; [reflexivity |].
  intros [Hc Hs]%andb_true_iff. unfold not_slash in Hc. apply negb_true_iff in Hc.
  rewrite Hc. by rewrite IH.
Qed.

Lemma take_segment_all (seg : list ascii) :
  forallb not_slash seg = true -> take_segment seg = seg.
Proof.
  induction seg as [|c seg IH]; simpl; [reflexivity |].
  intros [Hc Hs]%andb_true_iff. unfold not_slash in Hc. apply negb_true_iff in Hc.
  rewrite Hc. by rewrite IH.
Qed.

Lemma drop_slashes_head (c : ascii) (cs : list ascii) :
  not_slash c = true -> drop_slashes (c :: cs) = c :: cs.
Proof. unfold not_slash. intros Hc%negb_true_iff. simpl. by rewrite Hc. Qed.

Lemma basename_no_slash (p : string) : Runtime.no_slash (basename p) = true.
Proof.
  unfold Runtime.no_slash, basename. rewrite all_chars_forallb.
  rewrite list_ascii_of_string_of_list_ascii, forallb_rev.
  apply take_segment_no_slash.
Qed.

Lemma basename_of_name (name : string) :
  name <> "" -> Runtime.no_slash name = true -> basename name = name.
Proof.
  intros Hne Hns. unfold basename.
  unfold Runtime.no_slash in Hns. rewrite all_chars_forallb in Hns.
  rewrite <- forallb_rev in Hns.
  destruct (rev (list_ascii_of_string name)) as [|c cs] eqn:Hr.
  - apply (f_equal (@rev ascii)) in Hr. rewrite rev_involutive in Hr. simpl in Hr.
    apply (f_equal string_of_list_ascii) in Hr.
    rewrite string_of_list_ascii_of_string in Hr. done.
  - pose proof Hns as Hns'. simpl in Hns'. apply andb_true_iff in Hns' as [Hc _].
    rewrite drop_slashes_head by done. rewrite take_segment_all by done.
    rewrite <- Hr, rev_involutive. apply string_of_list_ascii_of_string.
Qed.

Lemma basename_of_join (dir name : string) :
  name <> "" -> Runtime.no_slash name = true -> basename (dir ++ "/" ++ name) = name.
Proof.
  intros Hne Hns. unfold basename.
  rewrite !list_ascii_app. change (list_ascii_of_string "/") with ["/"%char].
  rewrite rev_app_distr, rev_app_distr. simpl rev at 2. rewrite <- List.app_assoc. simpl app at 2.
  unfold Runtime.no_slash in Hns. rewrite all_chars_forallb in Hns.
  rewrite <- forallb_rev in Hns.
  destruct (rev (list_ascii_of_string name)) as [|c cs] eqn:Hr.
  - apply (f_equal (@rev ascii)) in Hr. rewrite rev_involutive in Hr. simpl in Hr.
    apply (f_equal string_of_list_ascii) in Hr.
    rewrite string_of_list_ascii_of_string in Hr. done.
  - pose proof Hns as Hns'. simpl in Hns'. apply andb_true_iff in Hns' as [Hc _].
    change ((c :: cs) ++ "/"%char :: rev (list_ascii_of_string dir))%list
      with (c :: (cs ++ "/"%char :: rev (list_ascii_of_string dir)))%list.
    rewrite drop_slashes_head by done.
    change (c :: (cs ++ "/"%char :: rev (list_ascii_of_string dir)))%list
      with ((c :: cs) ++ "/"%char :: rev (list_ascii_of_string dir))%list.
    rewrite take_segment_app by done.
    rewrite <- Hr, rev_involutive. apply string_of_list_ascii_of_string.
Qed.

(** *** The names the serving endpoint accepts *)

Lemma all_chars_impl (p q : ascii -> bool) (s : string) :
  (forall c, p c = true -> q c = true) ->
  Regex.all_chars p s = true -> Regex.all_chars q s = true.
Proof.
  intros Hpq. induction s as [|c s IH]; simpl; [done |].
  intros [Hc Hs]%andb_true_iff. rewrite (Hpq c Hc). by apply IH.
Qed.

Lemma hex_upper_dash_not_slash (c : ascii) :
  Regex.hex_upper_dash c = true -> not_slash c = true.
Proof.
  unfold not_slash. destruct (Ascii.eqb c "/") eqn:Hc; [|done].
  apply Ascii.eqb_eq in Hc as ->. by vm_compute.
Qed.

Lemma hex_upper_not_slash (c : ascii) : Regex.hex_upper c = true -> not_slash c = true.
Proof.
  unfold not_slash. destruct (Ascii.eqb c "/") eqn:Hc; [|done].
  apply Ascii.eqb_eq in Hc as ->. by vm_compute.
Qed.

Lemma digit_not_slash (c : ascii) : Regex.digit c = true -> not_slash c = true.
Proof.
  unfold not_slash. destruct (Ascii.eqb c "/") eqn:Hc; [|done].
  apply Ascii.eqb_eq in Hc as ->. by vm_compute.
Qed.

Lemma profile_name_no_slash (a d h tail : string) :
  Regex.all_chars Regex.hex_upper_dash a = true ->
  Regex.all_chars Regex.digit d = true ->
  Regex.all_chars Regex.hex_upper h = true ->
  Regex.all_chars not_slash tail = true ->
  Regex.all_chars not_slash ("profile-" ++ a ++ "-" ++ d ++ "-" ++ h ++ tail) = true.
Proof.
  intros Ha Hd Hh Ht.
  apply (all_chars_impl _ _ _ hex_upper_dash_not_slash) in Ha.
  apply (all_chars_impl _ _ _ digit_not_slash) in Hd.
  apply (all_chars_impl _ _ _ hex_upper_not_slash) in Hh.
  rewrite !all_chars_app, Ha, Hd, Hh, Ht. reflexivity.
Qed.

(** The pattern of the serving endpoint accepts exactly the names
    [profile-<A-F0-9->+-<digits>+-<A-F0-9>+-converted.json]; such a name
    holds no slash and is its own base name, so it cannot point outside
    the cache's keys. *)
Theorem accepted_filenames (f : string) :
  (Regex.test profile_filename_re f = true <->
   exists a d h,
     f = "profile-" ++ a ++ "-" ++ d ++ "-" ++ h ++ "-converted.json" /\
     (a <> "" /\ Regex.all_chars Regex.hex_upper_dash a = true) /\
     (d <> "" /\ Regex.all_chars Regex.digit d = true) /\
     (h <> "" /\ Regex.all_chars Regex.hex_upper h = true)) /\
  (Regex.test profile_filename_re f = true ->
   Runtime.no_slash f = true /\ basename f = f).
Proof.
  split; [apply profile_filename_language |].
  intros Ht. assert (Hns : Runtime.no_slash f = true).
  { apply profile_filename_language in Ht
      as (a & d & h & -> & [_ Ha] & [_ Hd] & [_ Hh]).
    by apply (profile_name_no_slash a d h "-converted.json"). }
  split; [done |]. apply basename_of_name; [|done]. by intros ->.
Qed.

(** *** The name of the converted file *)

Lemma replace_suffix_unfold (suffix replacement s : string) :
  replace_suffix suffix replacement s =
    if String.eqb s suffix then replacement
    else match s with
         | EmptyString => EmptyString
         | String c rest => String c (replace_suffix suffix replacement rest)
         end.
Proof. by destruct s. Qed.

Lemma replace_suffix_app (suffix replacement stem : string) :
  replace_suffix suffix replacement (stem ++ suffix) = stem ++ replacement.
Proof.
  induction stem as [|c stem IH]; rewrite replace_suffix_unfold.
  - change ("" ++ suffix) with suffix. by rewrite String.eqb_refl.
  - change (String c stem ++ suffix) with (String c (stem ++ suffix)).
    destruct (String.eqb (String c (stem ++ suffix)) suffix) eqn:He.
    + apply String.eqb_eq in He. apply (f_equal String.length) in He.
      simpl in He. rewrite length_app in He. lia.
    + rewrite IH. reflexivity.
Qed.

Lemma replace_suffix_other (suffix replacement s : string) :
  (forall stem, s <> stem ++ suffix) -> replace_suffix suffix replacement s = s.
Proof.
  induction s as [|c s IH]; intros Hno.
  - destruct suffix; [by destruct (Hno "") | reflexivity].
  - assert (He : String.eqb (String c s) suffix = false).
    { apply String.eqb_neq. exact (Hno ""). }
    rewrite replace_suffix_unfold, He. f_equal. apply IH.
    intros stem ->. by apply (Hno (String c stem)).
Qed.

(** [name.replace(/\.cpuprofile$/, '-converted.json')] turns
    [stem.cpuprofile] into [stem-converted.json], whatever the stem, and
    leaves a name that does not end in [.cpuprofile] as it is. *)
Theorem converted_filename (name : string) :
  (forall stem, name = stem ++ ".cpuprofile" ->
     replace_suffix ".cpuprofile" "-converted.json" name = stem ++ "-converted.json") /\
  ((forall stem, name <> stem ++ ".cpuprofile") ->
     replace_suffix ".cpuprofile" "-converted.json" name = name).
Proof.
  split.
  - intros stem ->. apply replace_suffix_app.
  - apply replace_suffix_other.
Qed.

(** A raw profile [dir/profile-<id>-<pid>-<hex>.cpuprofile] is converted
    into a file whose name the serving endpoint accepts. *)
Theorem converted_profile_is_servable (dir a d h : string) :
  a <> "" -> Regex.all_chars Regex.hex_upper_dash a = true ->
  d <> "" -> Regex.all_chars Regex.digit d = true ->
  h <> "" -> Regex.all_chars Regex.hex_upper h = true ->
  let rawPath := dir ++ "/" ++ "profile-" ++ a ++ "-" ++ d ++ "-" ++ h ++ ".cpuprofile" in
  let convertedFilename :=
    replace_suffix ".cpuprofile" "-converted.json" (basename rawPath) in
  convertedFilename = "profile-" ++ a ++ "-" ++ d ++ "-" ++ h ++ "-converted.json" /\
  Regex.test profile_filename_re convertedFilename = true.
Proof.
  intros Ha1 Ha2 Hd1 Hd2 Hh1 Hh2 rawPath convertedFilename.
  assert (Hname : convertedFilename
            = "profile-" ++ a ++ "-" ++ d ++ "-" ++ h ++ "-converted.json").
  { subst convertedFilename rawPath. rewrite basename_of_join.
    - pose proof (replace_suffix_app ".cpuprofile" "-converted.json"
                    ("profile-" ++ a ++ "-" ++ d ++ "-" ++ h)) as Hr.
      rewrite !app_assoc in Hr. exact Hr.
    - done.
    - by apply (profile_name_no_slash a d h ".cpuprofile"). }
  split; [done |]. rewrite Hname. apply profile_filename_language.
  exists a, d, h. auto.
Qed.

Lemma converted_profile_is_servable_witness :
  Regex.test profile_filename_re
    (replace_suffix ".cpuprofile" "-converted.json"
       (basename "/data/cache/profile-0A1B-C2-1700000000-BEEF.cpuprofile")) = true.
Proof.
  exact (proj2 (converted_profile_is_servable "/data/cache" "0A1B-C2" "1700000000" "BEEF"
                  ltac:(discriminate) eq_refl ltac:(discriminate) eq_refl
                  ltac:(discriminate) eq_refl)).
Defined.

(** *** Transform, open and serve, one after the other *)

Lemma post_transform_ok `{Platform} cwd (fs : filesystem) spawn_cli rawPath body :
  post_transform cwd fs spawn_cli (Some rawPath) = Json 200 body ->
  let name := replace_suffix ".cpuprofile" "-converted.json" (basename rawPath) in
  truthy rawPath = true /\ exit_code (spawn_cli rawPath) = Some 0%Z /\
  exists content,
    fs !! path_join cwd name = Some (File content) /\
    j_outputPath body = Some (path_join cwd name) /\
    j_outputFilename body = Some name /\
    j_outputBase64 body = Some (base64_of_utf8 content) /\
    j_ok body = Some true /\ j_stdout body = Some (child_stdout (spawn_cli rawPath)).
Proof.
  unfold post_transform. change (default "" (Some rawPath)) with rawPath.
  destruct (truthy rawPath); cbn [negb]; [|discriminate].
  destruct (decide (exit_code (spawn_cli rawPath) = Some 0%Z)) as [Hc|Hc].
  2:{ rewrite bool_decide_eq_false_2 by done. discriminate. }
  rewrite bool_decide_eq_true_2 by done. cbn [negb]. unfold readFileSync.
  destruct (fs !! _) as [[content|]|] eqn:Hf; try discriminate.
  intros [= <-]. cbn. eauto 10.
Qed.

Lemma get_profile_hit (fs : filesystem) (cache : gmap string string)
    (f p content : string) :
  cache !! f = Some p -> truthy p = true -> Regex.test profile_filename_re f = true ->
  fs !! p = Some (File content) ->
  get_profile fs cache f = Sent 200 "application/json" content.
Proof.
  intros Hc Hp Ht Hf. unfold get_profile. rewrite Ht, Hc. cbn [negb truthy_opt].
  change (default "" (Some p)) with p. rewrite Hp.
  unfold existsSync, readFileSync. by rewrite Hf.
Qed.

Lemma post_open_registers `{Platform} serverPort oc (cache : gmap string string) (p : string) :
  truthy p = true ->
  (post_open serverPort oc cache (Some p)).1 = <[basename p := p]> cache.
Proof.
  intros Hp. unfold post_open. change (default "" (Some p)) with p.
  rewrite Hp. cbn [negb]. by destruct oc.
Qed.

Lemma get_after_open `{Platform} serverPort oc (cache : gmap string string)
    (fs : filesystem) (p content : string) :
  truthy p = true -> Regex.test profile_filename_re (basename p) = true ->
  fs !! p = Some (File content) ->
  get_profile fs (post_open serverPort oc cache (Some p)).1 (basename p)
    = Sent 200 "application/json" content.
Proof.
  intros Hp Ht Hf. rewrite post_open_registers by done.
  apply (get_profile_hit _ _ _ p); [apply lookup_insert_eq | done..].
Qed.

(** The relay's own round trip.  When the transform endpoint answers 200,
    posting the [outputPath] it returned to the open endpoint and then
    getting the returned [outputFilename] from the serving endpoint gives
    200 with the very content whose encoding the transform returned,
    whether or not Chrome could be opened.  This needs the converted name
    to pass the pattern, and [path.join] to keep it as the base name. *)
Theorem transform_open_get `{Platform} (cwd : string) (serverPort : option N)
    (fs : filesystem) (spawn_cli : string -> child_result) (rawPath : string)
    (open_chrome : option thrown) (cache : gmap string string) (body : json) :
  post_transform cwd fs spawn_cli (Some rawPath) = Json 200 body ->
  (let name := replace_suffix ".cpuprofile" "-converted.json" (basename rawPath) in
   Regex.test profile_filename_re name = true /\
   basename (path_join cwd name) = name /\ truthy (path_join cwd name) = true) ->
  exists outputPath outputFilename content,
    j_outputPath body = Some outputPath /\
    j_outputFilename body = Some outputFilename /\
    j_outputBase64 body = Some (base64_of_utf8 content) /\
    get_profile fs (post_open serverPort open_chrome cache (Some outputPath)).1 outputFilename
      = Sent 200 "application/json" content.
Proof.
  intros Hok (Ht & Hb & Hp).
  destruct (post_transform_ok _ _ _ _ _ Hok) as (_ & _ & content & Hf & Hop & Hof & H64 & _).
  eexists _, _, content. split; [exact Hop |]. split; [exact Hof |]. split; [exact H64 |].
  rewrite <- Hb at 2. apply get_after_open; [done | by rewrite Hb | done].
Qed.

Lemma transform_open_get_witness :
  exists outputPath outputFilename content,
    outputPath = "/work/profile-AB-1-C-converted.json" /\
    outputFilename = "profile-AB-1-C-converted.json" /\
    @get_profile
      {[ "/work/profile-AB-1-C-converted.json" := File "{}" ]}
      (@post_open sample_platform (Some 9337) None ∅ (Some outputPath)).1 outputFilename
      = Sent 200 "application/json" content.
Proof.
  eassert (Hok : @post_transform sample_platform "/work"
                   {[ "/work/profile-AB-1-C-converted.json" := File "{}" ]}
                   (fun _ => {| exit_code := Some 0%Z; child_stdout := "";
                                child_stderr := "" |})
                   (Some "/data/profile-AB-1-C.cpuprofile") = Json 200 _)
    by (vm_compute; reflexivity).
  destruct (@transform_open_get sample_platform "/work" (Some 9337) _ _ _ None ∅ _ Hok
              ltac:(by vm_compute))
    as (outputPath & outputFilename & content & Hp & Hf & _ & Hget).
  injection Hp as <-. injection Hf as <-.
  exists "/work/profile-AB-1-C-converted.json", "profile-AB-1-C-converted.json", content.
  split; [reflexivity |]. split; [reflexivity |]. exact Hget.
Defined.

Lemma serve_app `{Platform} cwd serverPort (reqs1 reqs2 : list (filesystem * request)) cache :
  (serve cwd serverPort cache (reqs1 ++ reqs2)).1
    = (serve cwd serverPort (serve cwd serverPort cache reqs1).1 reqs2).1.
Proof.
  revert cache. induction reqs1 as [|[fs req] reqs1 IH]; intros cache; [reflexivity |].
  cbn [app serve]. destruct (handle cwd serverPort cache fs req) as [cache1 resp].
  specialize (IH cache1).
  destruct (serve cwd serverPort cache1 (reqs1 ++ reqs2)) as [c2 r2].
  destruct (serve cwd serverPort cache1 reqs1) as [c1 r1]. exact IH.
Qed.

Lemma handle_keeps `{Platform} cwd serverPort cache fs req key :
  registers key req = false ->
  (handle cwd serverPort cache fs req).1 !! key = cache !! key.
Proof.
  destruct req as [body sp|filename|[q|] oc]; try reflexivity; cbn [handle registers].
  unfold post_open. change (default "" (Some q)) with q.
  destruct (truthy q) eqn:Hq; cbn [negb andb]; [|reflexivity].
  intros Hk%String.eqb_neq. destruct oc; cbn [fst]; by rewrite lookup_insert_ne.
Qed.

Lemma serve_keeps `{Platform} cwd serverPort (reqs : list (filesystem * request)) cache key :
  forallb (fun r => negb (registers key r.2)) reqs = true ->
  (serve cwd serverPort cache reqs).1 !! key = cache !! key.
Proof.
  revert cache. induction reqs as [|[fs req] reqs IH]; intros cache; [reflexivity |].
  cbn [forallb snd]. intros [Hr Hrest]%andb_true_iff. apply negb_true_iff in Hr.
  cbn [serve]. pose proof (handle_keeps cwd serverPort cache fs req key Hr) as Hh.
  destruct (handle cwd serverPort cache fs req) as [cache1 resp].
  specialize (IH cache1 Hrest). destruct (serve cwd serverPort cache1 reqs) as [c2 r2].
  cbn [fst] in *. congruence.
Qed.

(** The latest registration wins, and nothing but a registration under the
    same name undoes it.  After any requests, an open request for [p], and
    any further requests of which none registers the base name of [p]
    again (transforms, gets, opens of other names), the cache maps that
    name to [p], and a GET of it serves the file at [p] if the name passes
    the pattern and the file is there. *)
Theorem latest_open_is_served `{Platform} (cwd : string) (serverPort : option N)
    (before after : list (filesystem * request)) (fs0 : filesystem) (p : string)
    (open_chrome : option thrown) :
  truthy p = true ->
  forallb (fun r => negb (registers (basename p) r.2)) after = true ->
  let cache :=
    (serve cwd serverPort ∅ (before ++ (fs0, PostOpen (Some p) open_chrome) :: after)).1 in
  cache !! basename p = Some p /\
  (forall fs content,
     Regex.test profile_filename_re (basename p) = true ->
     fs !! p = Some (File content) ->
     (handle cwd serverPort cache fs (GetProfile (basename p))).2
       = Sent 200 "application/json" content).
Proof.
  intros Hp Hafter cache.
  assert (Hc : cache !! basename p = Some p).
  { subst cache. rewrite serve_app.
    set (c1 := (serve cwd serverPort ∅ before).1).
    cbn [serve handle].
    pose proof (post_open_registers serverPort open_chrome c1 p Hp) as Ho.
    destruct (post_open serverPort open_chrome c1 (Some p)) as [c1' resp].
    cbn [fst] in Ho. subst c1'.
    pose proof (serve_keeps cwd serverPort after (<[basename p:=p]> c1) (basename p) Hafter)
      as Hk.
    destruct (serve cwd serverPort (<[basename p:=p]> c1) after) as [c2 r2].
    cbn [fst] in *. by rewrite Hk, lookup_insert_eq. }
  split; [exact Hc |]. intros fs content Ht Hf. cbn [handle snd].
  by apply (get_profile_hit _ _ _ p).
Qed.

Lemma latest_open_is_served_witness :
  (@serve sample_platform "/work" (Some 9337) ∅
     [ (∅, PostOpen (Some "/old/profile-AB-1-C-converted.json") None);
       (∅, PostOpen (Some "/work/profile-AB-1-C-converted.json") None);
       (∅, GetProfile "profile-AB-1-C-converted.json");
       (∅, PostOpen (Some "/work/profile-AB-2-D-converted.json") None) ]).1
    !! basename "/work/profile-AB-1-C-converted.json"
  = Some "/work/profile-AB-1-C-converted.json".
Proof.
  exact (proj1 (@latest_open_is_served sample_platform "/work" (Some 9337)
                  [ (∅, PostOpen (Some "/old/profile-AB-1-C-converted.json") None) ]
                  [ (∅, GetProfile "profile-AB-1-C-converted.json");
                    (∅, PostOpen (Some "/work/profile-AB-2-D-converted.json") None) ]
                  ∅ "/work/profile-AB-1-C-converted.json" None eq_refl eq_refl)).
Defined.

(** *** Calls of the start-up function that are not awaited *)

(** In every schedule of calls, a call either suspends at the import (the
    first one) or returns at once without a server handle, with the port
    recorded so far: none yet, or the configured one. *)
Theorem calls_return_no_handle `{Platform} (evs : list startup_event) :
  Forall2
    (fun ev res =>
       ev = CallStart ->
       res = None \/
       exists p, res = Some {| port := p; server := None |} /\
                 (p = None \/ p = Some DEFAULT_PORT))
    evs (startup_run initial evs).2.
Proof.
  set (Inv := fun st : module_state =>
                serverPort st = None \/ serverPort st = Some DEFAULT_PORT).
  assert (Hstep : forall st ev, Inv st -> Inv (startup_step st ev).1).
  { intros st [|] Hst; cbn.
    - unfold call_start. by destruct (started st).
    - destruct (awaiting st); [right; reflexivity | done]. }
  assert (Hgen : forall evs st, Inv st ->
            Forall2
              (fun ev res =>
                 ev = CallStart ->
                 res = None \/
                 exists p, res = Some {| port := p; server := None |} /\
                           (p = None \/ p = Some DEFAULT_PORT))
              evs (startup_run st evs).2).
  { clear evs. intros evs. induction evs as [|ev evs IH]; intros st Hst; [constructor |].
    cbn [startup_run]. specialize (Hstep st ev Hst).
    destruct (startup_step st ev) as [st' r] eqn:Hr. specialize (IH st' Hstep).
    destruct (startup_run st' evs) as [st'' rs]. cbn [snd] in *.
    constructor; [|done]. intros ->. cbn in Hr. unfold call_start in Hr.
    destruct (started st); injection Hr as <- <-; [right | by left].
    eexists. split; [reflexivity | exact Hst]. }
  apply Hgen. by left.
Qed.

End ServerMore.

(** ** More on the in-app hook *)
Module RuntimeMore.
Import JS Bridge Runtime RegexFacts RuntimeFacts.

(** The suggested filename is never empty and never holds a slash,
    whatever the native stop call returned. *)
Theorem suggested_filename_is_a_name (path : option string) :
  (suggested_filename path <> "") /\ no_slash (suggested_filename path) = true.
Proof.
  destruct path as [p|]; [|by split].
  destruct (pop_split p) as (pre & seg & Hpop & _ & Hns & _).
  unfold suggested_filename. cbn [mbind option_bind]. rewrite Hpop. cbn [or_else].
  destruct (truthy seg) eqn:Hs; [|by split]. split; [|done].
  intros ->. discriminate.
Qed.

Ltac absurd_mem :=
  repeat match goal with
         | H : _ ∈ [] |- _ => by apply elem_of_nil in H
         | H : _ ∈ _ :: _ |- _ => apply elem_of_cons in H as [H|H]; [try discriminate |]
         end.

Lemma read_profile_calls (env : environment) (path : option string) :
  (read_profile env path).1 = [] \/
  exists p, path = Some p /\ truthy p = true /\ has_readFile env = true /\
    (((read_profile env path).1 = [CallReadFile p] /\ exists e, readFile env p = Rejected e) \/
     ((read_profile env path).1 = [CallReadFile p; CallStat p] /\
      exists b, readFile env p = Fulfilled b)).
Proof.
  unfold read_profile. destruct path as [p|]; [|by left].
  destruct (truthy p) eqn:Ht; [|by left].
  destruct (has_readFile env) eqn:Hr; [|by left]. cbn [andb].
  right. exists p. repeat (split; [done |]).
  destruct (readFile env p) as [b|e]; [right | left; eauto].
  destruct (stat_size env p); eauto.
Qed.

(** The stop handler never calls [startProfiling], calls [stopProfiling]
    once, first, and touches a file only after the stop call gave it a
    non-empty path in time: it reads no other path, and asks for the size
    only of a file it has just read. *)
Theorem stop_handler_calls (env : environment) (payload : option bool) :
  let acts := on_stop_profiling env payload in
  (CallStartProfiling ∉ acts) /\
  (exists rest, acts = CallStopProfiling (default false payload) :: rest /\
                forall save, CallStopProfiling save ∉ rest) /\
  (forall p, CallReadFile p ∈ acts ->
     race_stop (stop_wins_tie env) (stopProfiling env (default false payload))
       = inl (Some p) /\
     truthy p = true /\ has_readFile env = true) /\
  (forall p, CallStat p ∈ acts ->
     CallReadFile p ∈ acts /\ exists b, readFile env p = Fulfilled b).
Proof.
  intros acts. subst acts. unfold on_stop_profiling.
  destruct (race_stop _ _) as [path|e].
  2:{ split; [intros Hin; absurd_mem |].
      split; [eexists; split; [reflexivity | intros save Hin; absurd_mem] |].
      split; intros p Hin; absurd_mem. }
  destruct (read_profile_calls env path) as [Hc|(p0 & -> & Ht & Hr & [[Hc He]|[Hc Hb]])];
    destruct (read_profile env _) as [calls [b sz]]; cbn [fst] in Hc; subst calls;
    cbn [app].
  - split; [intros Hin; absurd_mem |].
    split; [eexists; split; [reflexivity | intros save Hin; absurd_mem] |].
    split; intros p Hin; absurd_mem.
  - split; [intros Hin; absurd_mem |].
    split; [eexists; split; [reflexivity | intros save Hin; absurd_mem] |].
    split; intros p Hin; [|absurd_mem].
    assert (p = p0) as -> by (absurd_mem; congruence). done.
  - split; [intros Hin; absurd_mem |].
    split; [eexists; split; [reflexivity | intros save Hin; absurd_mem] |].
    split; intros p Hin.
    + assert (p = p0) as -> by (absurd_mem; congruence). done.
    + assert (p = p0) as -> by (absurd_mem; congruence).
      split; [apply list_elem_of_further, list_elem_of_here | done].
Qed.

(** A stop call that fails before the timer, by throwing or by rejecting,
    is reported with its own error and no file is touched: the text is the
    message of an [Error] that has one, else what [String] makes of the
    thrown value. *)
Theorem stop_failure_forwarded (env : environment) (payload : option bool) :
  (forall e, stopProfiling env (default false payload) = StopThrows e ->
     on_stop_profiling env payload
       = [CallStopProfiling (default false payload);
          Send (ProfileData (error_data (err_text e)))]) /\
  (forall t e, stopProfiling env (default false payload) = StopRejected t e ->
     t < 9000 ->
     on_stop_profiling env payload
       = [CallStopProfiling (default false payload);
          Send (ProfileData (error_data (err_text e)))]) /\
  (forall name message, message <> "" -> err_text (ThrownError name message) = message) /\
  (forall name, err_text (ThrownError name "") = name) /\
  (forall s, err_text (ThrownString s) = s).
Proof.
  split; [|split; [|split; [|split]]].
  - intros e He. unfold on_stop_profiling. by rewrite He.
  - intros t e He Ht. unfold on_stop_profiling, race_stop, stop_timeout_ms. rewrite He.
    apply N.ltb_lt in Ht. by rewrite Ht.
  - intros name message Hm. unfold err_text. cbn.
    destruct message; [done | reflexivity].
  - intros name. reflexivity.
  - intros s. unfold err_text. cbn. reflexivity.
Qed.

(** The whole success path.  When the stop call gives a non-empty path
    before the timer and [RNFS] reads the file and its size, the handler
    stops, reads, asks for the size, and sends one event with the last
    segment as filename, the path, the bytes as read, the size as
    reported, and the octet-stream MIME type. *)
Theorem stop_success_event (env : environment) (payload : option bool)
    (t : N) (p b : string) (sz : N) :
  stopProfiling env (default false payload) = StopFulfilled t (Some p) ->
  t < 9000 -> truthy p = true -> has_readFile env = true ->
  readFile env p = Fulfilled b -> stat_size env p = Fulfilled sz ->
  on_stop_profiling env payload
    = [CallStopProfiling (default false payload); CallReadFile p; CallStat p;
       Send (ProfileData
               {| filename := Some (suggested_filename (Some p)); path := Some p;
                  base64 := Some b; size := Some sz;
                  mime := Some "application/octet-stream"; error := None |})].
Proof.
  intros Hs Ht Hp Hr Hread Hstat.
  unfold on_stop_profiling, race_stop, stop_timeout_ms, read_profile. rewrite Hs.
  apply N.ltb_lt in Ht. rewrite Ht. cbn [orb]. rewrite Hp, Hr, Hread, Hstat. cbn.
  unfold Number_or_0. by destruct (N.eqb_spec sz 0) as [->|].
Qed.

Lemma stop_success_event_witness :
  sent (on_stop_profiling
          (sample_env None (StopFulfilled 250 (Some "/data/cache/p.cpuprofile"))
             (Fulfilled "AAAA") (Fulfilled 0)) (Some false))
    = [ProfileData
         {| filename := Some "p.cpuprofile"; path := Some "/data/cache/p.cpuprofile";
            base64 := Some "AAAA"; size := Some 0;
            mime := Some "application/octet-stream"; error := None |}].
Proof.
  rewrite (stop_success_event
             (sample_env None (StopFulfilled 250 (Some "/data/cache/p.cpuprofile"))
                (Fulfilled "AAAA") (Fulfilled 0))
             (Some false) 250 "/data/cache/p.cpuprofile" "AAAA" 0
             eq_refl eq_refl eq_refl eq_refl eq_refl eq_refl).
  reflexivity.
Defined.

End RuntimeMore.

(** ** More on the panel *)
Module PanelMore.
Import JS Bridge Panel PanelFacts.

Ltac absurd_mem :=
  repeat match goal with
         | H : _ ∈ [] |- _ => by apply elem_of_nil in H
         | H : _ ∈ _ :: _ |- _ => apply elem_of_cons in H as [H|H]; [try discriminate |]
         end.

(** *** What the panel sends *)

(** The panel sends a message to the runtime only on a press of the button
    with a client and the stopping flag clear: start-profiling when it is
    not profiling, stop-profiling, with [saveInDownloads: false], when it
    is.  No event from the runtime, no timer and no answer of the relay
    makes it send. *)
Theorem messages_come_from_presses (client : bool) (st : panel) (ev : event)
    (m : panel_message) :
  Send m ∈ (step client st ev).2 ->
  ev = Press /\ client = true /\ isStopping st = false /\
  ((m = StartProfiling /\ isProfiling st = false) \/
   (m = StopProfiling (Some false) /\ isProfiling st = true)).
Proof.
  destruct ev as [|[ts|d] a b|h|tid r|i|ok]; cbn [step snd].
  - unfold press. destruct (isStopping st) eqn:Hs; [intros Hin; cbn in Hin; absurd_mem |].
    destruct (isProfiling st) eqn:Hp.
    + destruct client; [|rewrite onStop_quiet by auto; intros Hin; cbn in Hin; absurd_mem].
      destruct (onStop_sends true st eq_refl Hs) as (-> & _).
      intros Hin. absurd_mem. injection Hin as ->. repeat split; auto.
    + unfold onStart. rewrite Hp. destruct client; cbn; intros Hin; cbn in Hin; absurd_mem.
      injection Hin as ->. repeat split; auto.
  - destruct client; cbn; intros Hin; cbn in Hin; absurd_mem.
  - destruct client; [|cbn; intros Hin; cbn in Hin; absurd_mem].
    unfold on_profile_data.
    destruct (pendingStopTimer st), (truthy_opt (error d)), (truthy_opt (path d));
      cbn; intros Hin; cbn in Hin; absurd_mem.
  - intros Hin. cbn in Hin. absurd_mem.
  - intros Hin. cbn in Hin. absurd_mem.
  - unfold press_open. destruct (traces st !! i) as [t|]; [|intros Hin; cbn in Hin; absurd_mem].
    destruct (truthy_opt (transformedPath t)); intros Hin; cbn in Hin; absurd_mem.
  - intros Hin. cbn in Hin. absurd_mem.
Qed.

Lemma messages_come_from_presses_witness :
  isProfiling initial = false /\ isStopping initial = false.
Proof.
  destruct (messages_come_from_presses true initial Press StartProfiling
              ltac:(apply list_elem_of_here))
    as (_ & _ & Hs & [[_ Hp]|[Hm _]]); [by split | discriminate].
Defined.

(** *** The list of traces *)

Lemma update_trace_length trace_id f ts : length (update_trace trace_id f ts) = length ts.
Proof. unfold update_trace. apply length_map. Qed.

Lemma on_profile_data_traces now_id now_received data st :
  length (traces (on_profile_data now_id now_received data st).1) = S (length (traces st)).
Proof.
  unfold on_profile_data.
  destruct (pendingStopTimer st), (truthy_opt (error data)), (truthy_opt (path data));
    unfold update_trace; cbn; by rewrite ?length_map.
Qed.

Ltac len_arith := rewrite ?Nat.add_0_r, ?Nat.add_1_r; reflexivity.

Lemma step_traces (client : bool) (st : panel) (ev : event) :
  length (traces (step client st ev).1)
    = (length (traces st) + if client && is_profile_data ev then 1 else 0)%nat.
Proof.
  destruct ev as [|[ts|d] a b|h|tid r|i|ok]; cbn [step is_profile_data fst];
    rewrite ?andb_false_r, ?andb_true_r.
  - unfold press. destruct (isStopping st) eqn:Hs; [cbn; len_arith |].
    destruct (isProfiling st) eqn:Hp.
    + destruct client; [|rewrite onStop_quiet by auto; cbn; len_arith].
      unfold onStop. rewrite Hs. cbn. destruct (pendingStopTimer st); cbn; len_arith.
    + unfold onStart. rewrite Hp. destruct client; cbn; len_arith.
  - destruct client; cbn; len_arith.
  - destruct client; [|cbn; len_arith]. rewrite on_profile_data_traces. len_arith.
  - unfold on_timer. destruct (timers st !! h) as [t|]; [|len_arith].
    destruct (callback t); cbn; len_arith.
  - destruct r; cbn; rewrite update_trace_length; len_arith.
  - unfold press_open. destruct (traces st !! i) as [t|]; [|cbn; len_arith].
    destruct (truthy_opt (transformedPath t)); cbn; len_arith.
  - destruct ok; cbn; len_arith.
Qed.

(** The panel lists one trace for each profile-data event it has received,
    the failed ones included: nothing else adds a trace and nothing ever
    removes one.  Without a client it lists none. *)
Theorem one_trace_per_profile_data (client : bool) (evs : list event) :
  length (traces (run client initial evs).1)
    = if client then length (List.filter is_profile_data evs) else 0%nat.
Proof.
  assert (Hgen : forall evs st,
            length (traces (run client st evs).1)
              = (length (traces st)
                 + if client then length (List.filter is_profile_data evs) else 0)%nat).
  { clear evs. intros evs. induction evs as [|ev evs IH]; intros st.
    - cbn. destruct client; lia.
    - cbn [run]. pose proof (step_traces client st ev) as Hs.
      destruct (step client st ev) as [st' out]. specialize (IH st').
      destruct (run client st' evs) as [st'' outs]. cbn [fst] in *.
      rewrite IH, Hs. cbn [List.filter].
      destruct client, (is_profile_data ev); cbn; lia. }
  rewrite Hgen. cbn. by destruct client.
Qed.

(** The end of a transform changes the traces with its id and no other:
    the list keeps its length and order, a trace with another id stays as
    it is, and a trace with the id is no longer transforming and keeps its
    id, its time and its path.  The two flags and the stop timer are not
    touched. *)
Theorem transform_settles_its_trace (trace_id : string) (result : try_result)
    (st : panel) :
  let st' := on_transform_settled trace_id result st in
  length (traces st') = length (traces st) /\
  isProfiling st' = isProfiling st /\ isStopping st' = isStopping st /\
  pendingStopTimer st' = pendingStopTimer st /\
  (forall i t, traces st !! i = Some t -> id t <> trace_id -> traces st' !! i = Some t) /\
  (forall i t, traces st !! i = Some t -> id t = trace_id ->
     exists t', traces st' !! i = Some t' /\ transforming t' = Some false /\
                id t' = id t /\ receivedAt t' = receivedAt t /\ t_path t' = t_path t /\
                t_error t' = t_error t).
Proof.
  intros st'. subst st'.
  destruct result as [json|err]; cbn; rewrite update_trace_length;
    (repeat (split; [reflexivity |])); (split; intros i t Hi Hid);
    unfold update_trace; rewrite list_lookup_fmap, Hi; cbn.
  - apply String.eqb_neq in Hid. by rewrite Hid.
  - apply String.eqb_eq in Hid. rewrite Hid. eexists. split; [reflexivity |]. by cbn.
  - apply String.eqb_neq in Hid. by rewrite Hid.
  - apply String.eqb_eq in Hid. rewrite Hid. eexists. split; [reflexivity |]. by cbn.
Qed.

(** *** Timers *)

(** A timer runs at most once: when it has run, or was cleared, its handle
    does nothing. *)
Lemma timer_runs_once (h : positive) (st : panel) :
  on_timer h (on_timer h st) = on_timer h st /\
  timers (on_timer h st) !! h = None.
Proof.
  assert (Hgone : timers (on_timer h st) !! h = None).
  { unfold on_timer. destruct (timers st !! h) as [t|] eqn:Hh; [|done].
    destruct (callback t); cbn; apply lookup_delete_eq. }
  split; [|done]. unfold on_timer at 1. by rewrite Hgone.
Qed.

(** Handles are fresh: every scheduled timer, and the one the ref points
    to, has a handle below the next one, so that a new timer never takes
    the place of a scheduled one. *)
Lemma timer_handles_are_fresh (client : bool) (evs : list event) :
  let st := (run client initial evs).1 in
  (forall h, is_Some (timers st !! h) -> (h < next_timer st)%positive) /\
  (forall h, pendingStopTimer st = Some h -> (h < next_timer st)%positive).
Proof.
  set (Inv := fun st : panel =>
    (forall h, is_Some (timers st !! h) -> (h < next_timer st)%positive) /\
    (forall h, pendingStopTimer st = Some h -> (h < next_timer st)%positive)).
  assert (Hset : forall cb ms st, Inv st -> Inv (setTimeout cb ms st).2).
  { intros cb ms st [Ht Hp]. split; cbn.
    - intros h. rewrite lookup_insert. case_decide as Hh; [subst; lia |].
      intros Hs%Ht. lia.
    - intros h Hs%Hp. lia. }
  assert (Hclear : forall h st, Inv st -> Inv (clearTimeout h st)).
  { intros h st [Ht Hp]. split; cbn; [|done].
    intros h'. rewrite lookup_delete. case_decide; [by intros [] | apply Ht]. }
  assert (Hstep : forall st ev, Inv st -> Inv (step client st ev).1).
  { intros st ev Hst. destruct ev as [|[ts|d] a b|h|tid r|i|ok]; cbn [step fst].
    - unfold press. destruct (isStopping st) eqn:Hs; [done |].
      destruct (isProfiling st) eqn:Hprof.
      + destruct client; [|rewrite onStop_quiet by auto; exact Hst].
        destruct (onStop_sends true st eq_refl Hs) as (_ & _ & _ & Hp & Ht).
        assert (Hn : next_timer (onStop true st).1 = Pos.succ (next_timer st)).
        { unfold onStop. rewrite Hs. cbn. destruct (pendingStopTimer st); reflexivity. }
        destruct Hst as [Hst1 Hst2]. split.
        * intros h. rewrite Ht, Hn, lookup_insert. case_decide as Hh; [subst; lia |].
          destruct (pendingStopTimer st).
          -- rewrite lookup_delete. case_decide; [by intros [] |]. intros Hl%Hst1. lia.
          -- intros Hl%Hst1. lia.
        * intros h. rewrite Hp, Hn. intros [= <-]. lia.
      + unfold onStart. rewrite Hprof. by destruct client.
    - by destruct client.
    - destruct client; [|done].
      destruct (on_profile_data_flags a b d st) as (_ & _ & Hp & Ht).
      assert (Hn : next_timer (on_profile_data a b d st).1 = next_timer st).
      { unfold on_profile_data.
        by destruct (pendingStopTimer st), (truthy_opt (error d)), (truthy_opt (path d)). }
      destruct Hst as [Hst1 Hst2]. split.
      + intros h. rewrite Ht, Hn. destruct (pendingStopTimer st).
        * rewrite lookup_delete. case_decide; [by intros [] | apply Hst1].
        * apply Hst1.
      + intros h. by rewrite Hp.
    - unfold on_timer. destruct (timers st !! h) as [t|]; [|done].
      pose proof (Hclear h st Hst) as Hc. by destruct (callback t).
    - destruct r as [json|err]; [|exact Hst].
      cbn [on_transform_settled]. apply (Hset ClearStatus 1500). exact Hst.
    - unfold press_open. destruct (traces st !! i) as [t|]; [|done].
      by destruct (truthy_opt (transformedPath t)).
    - destruct ok; cbn [on_open_settled];
        [apply (Hset ClearStatus 1500) | apply (Hset ClearStatus 2000)]; exact Hst. }
  assert (Hrun : forall evs st, Inv st -> Inv (run client st evs).1).
  { clear evs. intros evs. induction evs as [|ev evs IH]; intros st Hst; [done |].
    cbn [run]. specialize (Hstep st ev Hst). destruct (step client st ev) as [st' out].
    specialize (IH st' Hstep). by destruct (run client st' evs). }
  apply Hrun. split; cbn; [|done]. intros h. rewrite lookup_empty. by intros [].
Qed.

(** When the device never answers, the timer that [onStop] has set, for
    ten seconds, unlocks the panel: once it runs the panel is idle again
    and says that there was no response. *)
Theorem stop_timer_unlocks (st : panel) :
  isStopping st = false ->
  let stopping := (onStop true st).1 in
  let unlocked := on_timer (next_timer st) stopping in
  timers stopping !! next_timer st
    = Some {| callback := StopTimedOut; delay_ms := 10000 |} /\
  toggle_of stopping = Some Stopping /\
  toggle_of unlocked = Some Idle /\
  statusMsg unlocked = Some "No response from device. Check app logs." /\
  timers unlocked !! next_timer st = None.
Proof.
  intros Hs stopping unlocked.
  destruct (onStop_sends true st eq_refl Hs) as (_ & Hs1 & Hp1 & Hpend & Ht).
  fold stopping in Hs1, Hp1, Hpend, Ht.
  assert (Hl : timers stopping !! next_timer st
               = Some {| callback := StopTimedOut; delay_ms := 10000 |})
    by (rewrite Ht; apply lookup_insert_eq).
  split; [exact Hl |]. split; [unfold toggle_of; by rewrite Hs1, Hp1 |].
  subst unlocked. unfold on_timer. rewrite Hl. cbn.
  split; [unfold toggle_of; cbn; by rewrite Hp1 |]. split; [reflexivity |].
  apply lookup_delete_eq.
Qed.

Lemma stop_timer_unlocks_witness :
  toggle_of (on_timer 1 (run true initial [Press; Press]).1) = Some Idle.
Proof.
  exact (proj1 (proj2 (proj2 (stop_timer_unlocks (run true initial [Press]).1 eq_refl)))).
Defined.

(** *** [tryEndpoints] against any server *)

(** Whatever answers at the two addresses, the panel fetches them in order
    and stops at the first success; a success is a 2xx answer whose body
    does not say [ok: false], also when the body is not JSON, and the
    result then holds the body as read (the empty object in that case); a
    failure means both were fetched and both failed, and holds the error of
    the second; a rejected [fetch] leaves the text of what was thrown. *)
Theorem try_endpoints_any_server `{Platform} (fetch : string -> string -> fetch_outcome)
    (path : string) :
  let result := tryEndpoints fetch path in
  let loopback :=
    "http://127.0.0.1:" ++ num_to_string DEFAULT_PORT ++ "/rozenite/hermes/transform" in
  match result.2 with
  | TryOk json =>
      exists before url after,
        candidates = (before ++ url :: after)%list /\ result.1 = (before ++ [url])%list /\
        Forall (fun u => attempt_error (fetch u path) <> None) before /\
        attempt_error (fetch url path) = None /\
        json = response_json (fetch url path)
  | TryFail err =>
      result.1 = candidates /\
      Forall (fun u => attempt_error (fetch u path) <> None) candidates /\
      err = attempt_error (fetch loopback path)
  end /\
  (forall status body,
     attempt_error (Responded status body) = None <->
     (200 <= status <= 299 /\ Server.j_ok (default Server.json_empty body) <> Some false)) /\
  (forall status, 200 <= status <= 299 ->
     attempt_error (Responded status None) = None /\
     response_json (Responded status None) = Server.json_empty) /\
  (forall e, attempt_error (FetchThrows e) = Some (err_text e)).
Proof.
  intros result loopback.
  assert (Hok : forall status body,
            attempt_error (Responded status body) = None <->
            (200 <= status <= 299 /\
             Server.j_ok (default Server.json_empty body) <> Some false)).
  { intros status body. unfold attempt_error, res_ok, ok_is_false.
    destruct (N.leb_spec 200 status), (N.leb_spec status 299); cbn [andb negb orb];
      try (split; [discriminate | intros [? _]; lia]).
    destruct (Server.j_ok (default Server.json_empty body)) as [[|]|]; cbn.
    - split; [intros _; split; [lia | discriminate] | done].
    - split; [discriminate | by intros [_ ?]].
    - split; [intros _; split; [lia | discriminate] | done]. }
  split; [|split; [exact Hok | split; [|reflexivity]]].
  - pose proof (try_loop_spec fetch path candidates None) as Hs. cbn zeta in Hs.
    subst result. unfold tryEndpoints. destruct (try_loop fetch path candidates None).2.
    + exact Hs.
    + destruct Hs as (? & ? & ->). repeat (split; [done |]). reflexivity.
  - intros status Hs. split; [|reflexivity]. apply Hok. split; [done |]. discriminate.
Qed.

(** *** The panel and the relay together *)

(** What the panel keeps as the error of an attempt against the relay: the
    text of the network error when the address cannot be reached; the
    CLI's standard error when it failed, or [transform_failed] when that is
    empty; the message of the file error when the converted file cannot be
    read; and no error exactly when the CLI ended with code 0 and the
    converted file is there. *)
Theorem relay_failure_text `{Platform} (net : string -> thrown + relay)
    (url path : string) :
  truthy path = true ->
  attempt_error (relay_fetch net url path) =
    match net url with
    | inl e => Some (err_text e)
    | inr r =>
        if bool_decide (Server.exit_code (spawn_cli r path) = Some 0%Z) then
          let outputPath :=
            path_join (cwd r)
              (Server.replace_suffix ".cpuprofile" "-converted.json"
                 (Server.basename path)) in
          match fs r !! outputPath with
          | Some (Server.File _) => None
          | Some Server.Directory =>
              Some "EISDIR: illegal operation on a directory, read"
          | None =>
              Some ("ENOENT: no such file or directory, open '" ++ outputPath ++ "'")
          end
        else Some (or_else (Some (Server.child_stderr (spawn_cli r path)))
                     "transform_failed")
    end.
Proof.
  intros Hp. unfold relay_fetch. destruct (net url) as [e|r]; [reflexivity |].
  unfold Server.post_transform. change (default "" (Some path)) with path.
  rewrite Hp. cbn [negb].
  destruct (bool_decide (Server.exit_code (spawn_cli r path) = Some 0%Z)); cbn [negb].
  - unfold Server.readFileSync. destruct (fs r !! _) as [[content|]|]; reflexivity.
  - cbn -[truthy num_to_string].
    destruct (truthy (Server.child_stderr (spawn_cli r path))) eqn:Hs;
      cbn -[truthy num_to_string]; by rewrite ?Hs.
Qed.

Lemma relay_failure_text_witness :
  @attempt_error
    (@relay_fetch sample_platform
       (fun _ => inr {| cwd := "/work"; fs := ∅;
                        spawn_cli := fun _ =>
                          {| Server.exit_code := Some 1%Z; Server.child_stdout := "";
                             Server.child_stderr := "Error: cannot parse profile" |} |})
       "http://localhost:9337/rozenite/hermes/transform" "/data/p.cpuprofile")
    = Some "Error: cannot parse profile".
Proof.
  rewrite (@relay_failure_text sample_platform _ _ "/data/p.cpuprofile" eq_refl).
  reflexivity.
Defined.

(** From the event to the list.  A profile-data event without error and
    with a path, when the relay at the first address converts the file,
    leaves the panel idle with a new first trace that is no longer
    transforming, has no error, and holds the output path and the output
    filename of the relay's answer; the button of that trace then posts
    that output path to the open endpoint.  The traces already listed stay
    as they are unless one has the same id (the same millisecond). *)
Theorem converted_trace_is_listed `{Platform} (net : string -> thrown + relay)
    (now_id now_received : N) (data : profile_data) (st : panel) (p : string) :
  truthy_opt (error data) = false -> path data = Some p -> truthy p = true ->
  attempt_error
    (relay_fetch net
       ("http://localhost:" ++ num_to_string DEFAULT_PORT ++ "/rozenite/hermes/transform")
       p) = None ->
  let st' := profile_data_flow (relay_fetch net) now_id now_received data st in
  exists json t rest,
    converted_answer net
      ("http://localhost:" ++ num_to_string DEFAULT_PORT ++ "/rozenite/hermes/transform")
      p json /\
    traces st' = t :: rest /\ length rest = length (traces st) /\
    (Forall (fun old => id old <> num_to_string now_id) (traces st) -> rest = traces st) /\
    id t = num_to_string now_id /\ receivedAt t = now_received /\
    t_path t = Some p /\ transforming t = Some false /\
    transformError t = None /\ t_error t = None /\
    transformedPath t = Server.j_outputPath json /\
    t_filename t = or_opt (Server.j_outputFilename json) (filename data) /\
    toggle_of st' = Some Idle /\ statusMsg st' = Some "Transform complete" /\
    (truthy_opt (Server.j_outputPath json) = true ->
     (press_open 0 st').2 = [PostOpen (default "" (Server.j_outputPath json))]).
Proof.
  intros He Hpath Hp. set (localhost := "http://localhost:" ++ _). intros Hok st'.
  destruct (relay_success net _ p Hok) as (json & Hj & Hc & _).
  assert (Htry : (tryEndpoints (relay_fetch net) p).2 = TryOk json).
  { unfold tryEndpoints, candidates. fold localhost.
    rewrite try_loop_cons, Hok. cbn [snd]. by rewrite Hj. }
  clearbody localhost.
  exists json. subst st'. unfold profile_data_flow, on_profile_data.
  rewrite He, Hpath. cbn [truthy_opt]. rewrite Hp.
  change (default "" (Some p)) with p.
  cbn [fold_left settle_transform]. rewrite Htry.
  assert (Hrest : forall f (ts : list CapturedTrace),
            Forall (fun old => id old <> num_to_string now_id) ts ->
            update_trace (num_to_string now_id) f ts = ts).
  { intros f ts Hall. unfold update_trace. induction Hall as [|o ts Ho _ IH]; [done |].
    cbn [map]. apply String.eqb_neq in Ho. by rewrite Ho, IH. }
  destruct (pendingStopTimer st) as [h|];
    cbn -[num_to_string String.eqb update_trace truthy_opt];
    unfold update_trace at 1; cbn -[num_to_string String.eqb update_trace truthy_opt];
    (eexists; eexists; split; [exact Hc |]);
    rewrite !String.eqb_refl;
    (split; [reflexivity |]); (split; [apply update_trace_length |]);
    (split; [apply Hrest |]);
    cbn -[num_to_string String.eqb update_trace truthy_opt];
    repeat (split; [reflexivity |]);
    intros Ho; unfold press_open, update_trace;
    cbn -[num_to_string String.eqb truthy_opt]; rewrite String.eqb_refl;
    cbn -[num_to_string String.eqb truthy_opt]; by rewrite Ho.
Qed.

Lemma converted_trace_is_listed_witness :
  exists t rest,
    traces (@profile_data_flow sample_platform
              (@relay_fetch sample_platform (fun _ => inr sample_relay))
              1700000000000 1700000000001
              {| filename := Some "p.cpuprofile"; path := Some "/data/p.cpuprofile";
                 base64 := None; size := None;
                 mime := Some "application/octet-stream"; error := None |}
              initial)
      = t :: rest /\
    transformedPath t = Some "/work/p-converted.json" /\
    t_filename t = Some "p-converted.json".
Proof.
  destruct (@converted_trace_is_listed sample_platform (fun _ => inr sample_relay)
              1700000000000 1700000000001
              {| filename := Some "p.cpuprofile"; path := Some "/data/p.cpuprofile";
                 base64 := None; size := None;
                 mime := Some "application/octet-stream"; error := None |}
              initial "/data/p.cpuprofile" eq_refl eq_refl eq_refl
              ltac:(by vm_compute))
    as (json & t & rest & (r & content & Hn & _ & Hfs & Hname & _ & Hout) & Ht & _ & _
        & _ & _ & _ & _ & _ & _ & Hpath & Hfile & _).
  exists t, rest. split; [exact Ht |].
  injection Hn as <-. rewrite Hpath, Hfile, Hout, Hname. by vm_compute.
Defined.


End PanelMore.
